(** * Takahe: posts, their ActivityPub documents and their fan-out

    A shallow embedding of [activities/models/post.py] and of the migration
    [users/migrations/0013_stator_indexes.py].

    Python values that travel in ActivityPub documents are values of [json];
    a Python [dict] is a [gmap string json], so that two documents with the
    same entries are equal whatever the order they were built in.  Model
    methods that read or write the database are computations of the monad
    [M]: they take the store, return the store they leave behind and either
    the exception they raise or their result.  A store written before an
    exception is raised stays written, as Django's autocommit has it; only
    [atomic] rolls back.

    The post types of [activities/models/post_types.py] follow in the
    module [PostTypes].

    Not modelled: the [created] and [updated] timestamps Django maintains by
    itself, the conversion Django applies to a value of the wrong type when a
    row is written (a row holds the Python value it was given), the length
    limits of the text columns, and the cascade of a delete to rows of other
    tables. *)

From stdpp Require Import gmap strings pretty list fin_maps.
From Stdlib Require Import ZArith.

#[local] Set Warnings "-register-all".
#[local] Open Scope string_scope.
#[local] Open Scope list_scope.

(** ** Python values

    The values of a document: [None], booleans, strings and dicts.  On
    these, Python's [==] is equality of the values, whatever the order in
    which a dict was filled. *)

Inductive json : Type :=
  | JNull
  | JBool (b : bool)
  | JStr (s : string)
  | JObj (m : gmap string json).

Global Instance json_eq_dec : EqDecision json.
Proof.
  refine (fix go (x y : json) {struct x} : Decision (x = y) :=
    let _ : EqDecision json := @go in
    match x, y with
    | JNull, JNull => left _
    | JBool a, JBool b => cast_if (decide (a = b))
    | JStr a, JStr b => cast_if (decide (a = b))
    | JObj a, JObj b => cast_if (decide (a = b))
    | _, _ => right _
    end); congruence.
Defined.

(** The exception classes the code raises or lets through. *)
Inductive exn : Type :=
  | ValueError
  | KeyError
  | TypeError
  | DoesNotExist
  | MultipleObjectsReturned
  | IntegrityError
  | OtherError (name : string).

Global Instance exn_eq_dec : EqDecision exn.
Proof. solve_decision. Defined.

(** [bool(v)]: [None], [False], the empty string and the empty dict are
    false. *)
Definition truthy (v : json) : bool :=
  match v with
  | JNull => false
  | JBool b => b
  | JStr s => negb (bool_decide (s = ""))
  | JObj m => negb (bool_decide (m = ∅))
  end.

(** [v[k]]: [KeyError] on a dict without the key, [TypeError] on a value
    that is no dict. *)
Definition subscript (v : json) (k : string) : exn + json :=
  match v with
  | JObj m =>
      match m !! k with
      | Some x => inr x
      | None => inl KeyError
      end
  | _ => inl TypeError
  end.

(** [d.get(k, default)] on a dict. *)
Definition dict_get (d : gmap string json) (k : string) (dflt : json) : json :=
  default dflt (d !! k).

(** [v + s] for a [str] literal [s]: only a [str] can be extended. *)
Definition add_str (v : json) (s : string) : exn + json :=
  match v with
  | JStr a => inr (JStr (a +:+ s))
  | _ => inl TypeError
  end.

(** ** The state graph of a post (class [PostStates]) *)

Inductive PostStates : Type := new | fanned_out.

Global Instance PostStates_eq_dec : EqDecision PostStates.
Proof. solve_decision. Defined.

(** [new = State(try_interval=300)], [fanned_out = State()]. *)
Definition try_interval (s : PostStates) : option Z :=
  match s with
  | new => Some 300%Z
  | fanned_out => None
  end.

(** [new.transitions_to(fanned_out)] is the only edge. *)
Definition transitions_to (s : PostStates) : list PostStates :=
  match s with
  | new => [fanned_out]
  | fanned_out => []
  end.

Definition terminal (s : PostStates) : bool :=
  bool_decide (transitions_to s = []).

(** The initial state of the graph: the state no edge leads to. *)
Definition initial_state : PostStates := new.

(** ** Rows *)

Definition datetime : Type := Z.

(** [users.Identity], as far as [post.py] reads it. *)
Record Identity : Type := mkIdentity {
  identity_id : nat;
  actor_uri : string;
  identity_local : bool;
}.

Global Instance Identity_eq_dec : EqDecision Identity.
Proof. solve_decision. Defined.

(** [users.Follow]: a row carries its two ends, as [select_related] loads
    them. *)
Record Follow : Type := mkFollow {
  follow_id : nat;
  source : Identity;
  target : Identity;
}.

Definition source_id (f : Follow) : nat := identity_id (source f).
Definition target_id (f : Follow) : nat := identity_id (target f).

Inductive Visibilities : Type := public | unlisted | followers | mentioned.

Definition Visibilities_value (v : Visibilities) : Z :=
  match v with
  | public => 0
  | unlisted => 1
  | followers => 2
  | mentioned => 3
  end.

(** The model [Post].  The columns that [by_ap] fills from a document hold
    the Python value they were given.  [state], [state_ready] and
    [state_locked_until] are the scheduling columns every [StatorModel]
    has. *)
Record Post : Type := mkPost {
  id : nat;
  author : Identity;
  state : PostStates;
  state_ready : bool;
  state_locked_until : option datetime;
  local : bool;
  object_uri : json;
  visibility : Visibilities;
  content : string;
  sensitive : json;
  summary : json;
  url : json;
  in_reply_to : json;
  to : list Identity;
  mentions : list Identity;
  published : datetime;
}.

Definition author_id (p : Post) : nat := identity_id (author p).

Definition set_id (n : nat) (p : Post) : Post :=
  mkPost n (author p) (state p) (state_ready p) (state_locked_until p)
    (local p) (object_uri p) (visibility p) (content p) (sensitive p)
    (summary p) (url p) (in_reply_to p) (to p) (mentions p) (published p).

Definition set_object_uri (v : json) (p : Post) : Post :=
  mkPost (id p) (author p) (state p) (state_ready p) (state_locked_until p)
    (local p) v (visibility p) (content p) (sensitive p)
    (summary p) (url p) (in_reply_to p) (to p) (mentions p) (published p).

Definition set_url (v : json) (p : Post) : Post :=
  mkPost (id p) (author p) (state p) (state_ready p) (state_locked_until p)
    (local p) (object_uri p) (visibility p) (content p) (sensitive p)
    (summary p) v (in_reply_to p) (to p) (mentions p) (published p).

Definition set_content (c : string) (p : Post) : Post :=
  mkPost (id p) (author p) (state p) (state_ready p) (state_locked_until p)
    (local p) (object_uri p) (visibility p) c (sensitive p)
    (summary p) (url p) (in_reply_to p) (to p) (mentions p) (published p).

Definition set_summary (v : json) (p : Post) : Post :=
  mkPost (id p) (author p) (state p) (state_ready p) (state_locked_until p)
    (local p) (object_uri p) (visibility p) (content p) (sensitive p)
    v (url p) (in_reply_to p) (to p) (mentions p) (published p).

Definition set_sensitive (v : json) (p : Post) : Post :=
  mkPost (id p) (author p) (state p) (state_ready p) (state_locked_until p)
    (local p) (object_uri p) (visibility p) (content p) v
    (summary p) (url p) (in_reply_to p) (to p) (mentions p) (published p).

Definition set_published (d : datetime) (p : Post) : Post :=
  mkPost (id p) (author p) (state p) (state_ready p) (state_locked_until p)
    (local p) (object_uri p) (visibility p) (content p) (sensitive p)
    (summary p) (url p) (in_reply_to p) (to p) (mentions p) d.

Definition set_scheduling (s : PostStates) (ready : bool)
    (locked : option datetime) (p : Post) : Post :=
  mkPost (id p) (author p) s ready locked
    (local p) (object_uri p) (visibility p) (content p) (sensitive p)
    (summary p) (url p) (in_reply_to p) (to p) (mentions p) (published p).

(** Modelled from the spec: [activities.FanOut], whose module is not among
    the sources.  A row has a recipient identity, a type (post delivery,
    like, boost), the subject it refers to, and a delivery state that starts
    at [queued] and ends at [delivered] or [failed]. *)
Inductive FanOut_Types : Type := Types_post | Types_like | Types_boost.

Inductive FanOutStates : Type := queued | delivered | failed.

Record FanOut : Type := mkFanOut {
  fanout_id : nat;
  fanout_identity_id : nat;
  fanout_type : FanOut_Types;
  subject_post_id : nat;
  fanout_state : FanOutStates;
}.

(** [activities.TimelineEvent], as far as [post.py] writes it. *)
Record TimelineEvent : Type := mkTimelineEvent {
  event_identity : Identity;
  event_subject_post : Post;
}.

(** ** HTTP *)

Record Request : Type := mkRequest {
  req_method : string;
  req_url : json;
  req_headers : list (string * string);
  req_follow_redirects : bool;
}.

(** [response.json()] raises when the body is no JSON. *)
Record Response : Type := mkResponse {
  status_code : Z;
  response_json : exn + json;
}.

(** ** The store *)

Record World : Type := mkWorld {
  posts : list Post;
  identities : list Identity;
  follows : list Follow;
  fanouts : list FanOut;
  timeline_events : list TimelineEvent;
  now : datetime;
  requests : list Request;
}.

Definition set_posts (ps : list Post) (w : World) : World :=
  mkWorld ps (identities w) (follows w) (fanouts w) (timeline_events w)
    (now w) (requests w).

Definition set_identities (l : list Identity) (w : World) : World :=
  mkWorld (posts w) l (follows w) (fanouts w) (timeline_events w)
    (now w) (requests w).

Definition set_fanouts (l : list FanOut) (w : World) : World :=
  mkWorld (posts w) (identities w) (follows w) l (timeline_events w)
    (now w) (requests w).

Definition set_timeline_events (l : list TimelineEvent) (w : World) : World :=
  mkWorld (posts w) (identities w) (follows w) (fanouts w) l
    (now w) (requests w).

Definition set_requests (l : list Request) (w : World) : World :=
  mkWorld (posts w) (identities w) (follows w) (fanouts w)
    (timeline_events w) (now w) l.

(** ** The monad of model methods *)

Definition M (A : Type) : Type := World → World * (exn + A).

Definition ret {A} (x : A) : M A := λ w, (w, inr x).

Definition raise {A} (e : exn) : M A := λ w, (w, inl e).

Definition bind {A B} (m : M A) (k : A → M B) : M B :=
  λ w, match m w with
       | (w', inr x) => k x w'
       | (w', inl e) => (w', inl e)
       end.

Notation "x <- m ;; k" := (bind m (λ x, k))
  (at level 100, m at next level, right associativity,
   format "'[v' x  <-  m  ;;  '/' k ']'").
Notation "m ;;; k" := (bind m (λ _, k))
  (at level 100, right associativity).

(** A pure step that may raise. *)
Definition lift {A} (r : exn + A) : M A := λ w, (w, r).

(** [try: m except e: h] *)
Definition try_except {A} (m : M A) (e : exn) (h : M A) : M A :=
  λ w, match m w with
       | (w', inl e') => if decide (e' = e) then h w' else (w', inl e')
       | r => r
       end.

(** [with transaction.atomic(): m] *)
Definition atomic {A} (m : M A) : M A :=
  λ w, match m w with
       | (_, inl e) => (w, inl e)
       | r => r
       end.

(** [for x in l: body(x)] *)
Fixpoint for_each {A} (l : list A) (body : A → M unit) : M unit :=
  match l with
  | [] => ret tt
  | x :: l' => body x ;;; for_each l' body
  end.

(** ** The object manager *)

(** [timezone.now()] *)
Definition timezone_now : M datetime := λ w, (w, inr (now w)).

(** [Model.objects.get(...)]: exactly one row must match. *)
Definition objects_get {A} (table : World → list A) (P : A → Prop)
    `{∀ x, Decision (P x)} : M A :=
  λ w, match filter P (table w) with
       | [] => (w, inl DoesNotExist)
       | [x] => (w, inr x)
       | _ => (w, inl MultipleObjectsReturned)
       end.

(** The primary key the database gives the next row: one that no row of
    the table has, here the successor of the largest.  The sequence of a
    database also passes over the keys of rows that were deleted; the store
    keeps no trace of those, so that after a delete a key can come back
    here that would not come back there. *)
Definition next_pk (pks : list nat) : nat := S (max_list pks).

(** [object_uri] is declared [unique=True]: a row may not take the URI of
    another row; [NULL]s never clash. *)
Definition object_uri_clash (p : Post) (ps : list Post) : bool :=
  bool_decide (object_uri p ≠ JNull) &&
  bool_decide (Exists (λ q, id q ≠ id p ∧ object_uri q = object_uri p) ps).

(** The column defaults of [Post]; [author], [content] and [local] have
    none.  Modelled from the spec, for the scheduling columns that
    [stator.models] declares: a row is created in the initial state of its
    graph, ready and unlocked. *)
Definition Post_defaults (author : Identity) (content : string) (local : bool)
    (published : datetime) : Post :=
  {| id := 0; author := author;
     state := initial_state; state_ready := true; state_locked_until := None;
     local := local; object_uri := JNull; visibility := public;
     content := content; sensitive := JBool false; summary := JNull;
     url := JNull; in_reply_to := JNull; to := []; mentions := [];
     published := published |}.

(** [Post.objects.create] with the keyword arguments [kw]; both callers
    give [sensitive] a boolean or leave it at its default. *)
Definition Post_objects_create (kw : Post) : M Post :=
  λ w, let p := set_id (next_pk (id <$> posts w)) kw in
       if object_uri_clash p (posts w) then (w, inl IntegrityError)
       else (set_posts (posts w ++ [p]) w, inr p).

(** The table once the row with the primary key of [p] is rewritten to
    [p]. *)
Definition rewrite_row (p : Post) (ps : list Post) : list Post :=
  (λ q, if decide (id q = id p) then p else q) <$> ps.

(** The row with the primary key of [p] is written: rewritten, or inserted
    when there is none. *)
Definition write_row (p : Post) : M unit :=
  λ w, if object_uri_clash p (posts w) then (w, inl IntegrityError)
       else if bool_decide (Exists (λ q, id q = id p) (posts w))
       then (set_posts (rewrite_row p (posts w)) w, inr tt)
       else (set_posts (posts w ++ [p]) w, inr tt).

(** What a [BooleanField] without [null=True] makes of a value that is to
    be saved: [None] reaches the database and is refused there, a boolean
    and the strings that stand for one are taken, and any other value is
    refused by the field. *)
Definition BooleanField_refuses (v : json) : option exn :=
  match v with
  | JNull => Some IntegrityError
  | JBool _ => None
  | JStr s =>
      if bool_decide (s ∈ ["t"; "True"; "1"; "f"; "False"; "0"]) then None
      else Some (OtherError "ValidationError")
  | JObj _ => Some (OtherError "ValidationError")
  end.

(** [post.save()]: the values are prepared for their columns and the row
    is written.  Of the columns that hold a value of a document, the text
    columns take any value; [sensitive] is the one that can refuse it. *)
Definition Post_save (p : Post) : M unit :=
  match BooleanField_refuses (sensitive p) with
  | Some e => raise e
  | None => write_row p
  end.

(** [post.delete()]: the row leaves the table. *)
Definition Post_delete (p : Post) : M unit :=
  λ w, (set_posts (filter (λ q, id q ≠ id p) (posts w)) w, inr tt).

(** [FanOut.objects.acreate(identity_id=..., type=..., subject_post=...)];
    the row starts in the initial state of its own graph. *)
Definition FanOut_objects_acreate (identity_id : nat) (type : FanOut_Types)
    (subject_post : Post) : M FanOut :=
  λ w, let r := {| fanout_id := next_pk (fanout_id <$> fanouts w);
                   fanout_identity_id := identity_id;
                   fanout_type := type;
                   subject_post_id := id subject_post;
                   fanout_state := queued |} in
       (set_fanouts (fanouts w ++ [r]) w, inr r).

(** [identity.inbound_follows]: the follows that target the identity. *)
Definition inbound_follows (i : Identity) : M (list Follow) :=
  λ w, (w, inr (filter (λ f, target_id f = identity_id i) (follows w))).

(** [Follow.objects.filter(target=i, source__local=True)] *)
Definition Follow_objects_filter_target_source_local (i : Identity)
    : M (list Follow) :=
  λ w, (w, inr (filter (λ f, target_id f = identity_id i
                             ∧ identity_local (source f) = true) (follows w))).

(** ** What [post.py] imports

    [core.html], [core.ld], [urlman], [httpx], [users.models.identity] and
    [activities.models.timeline_event] are used through this interface.
    [Identity.by_actor_uri] and [TimelineEvent.add_post] act on their own
    tables. *)
Class Collaborators : Type := {
  sanitize_post : string → string;
  format_ld_date : datetime → string;
  parse_ld_date : json → exn + datetime;
  canonicalise : json → bool → exn + json;
  urls_object_uri : Post → string;
  urls_view_nice : Post → string;
  httpx_get : Request → exn + Response;
  Identity_by_actor_uri :
    json → bool → list Identity → list Identity * (exn + Identity);
  TimelineEvent_add_post :
    Identity → Post → list TimelineEvent → exn + list TimelineEvent;
}.

Section Post.

Context `{Collaborators}.

(** [bleach] cleans text only. *)
Definition sanitize_value (v : json) : exn + string :=
  match v with
  | JStr s => inr (sanitize_post s)
  | _ => inl TypeError
  end.

(** [data.get(k, default)] *)
Definition json_get (data : json) (k : string) (dflt : json) : exn + json :=
  match data with
  | JObj m => inr (dict_get m k dflt)
  | _ => inl (OtherError "AttributeError")
  end.

(** The request is sent, and recorded in [requests]. *)
Definition httpx_get_ (url : json) (headers : list (string * string))
    (follow_redirects : bool) : M Response :=
  λ w, let r := {| req_method := "GET"; req_url := url;
                   req_headers := headers;
                   req_follow_redirects := follow_redirects |} in
       (set_requests (requests w ++ [r]) w, httpx_get r).

Definition by_actor_uri (uri : json) (create : bool) : M Identity :=
  λ w, let '(l, r) := Identity_by_actor_uri uri create (identities w) in
       (set_identities l w, r).

Definition add_post (i : Identity) (p : Post) : M unit :=
  λ w, match TimelineEvent_add_post i p (timeline_events w) with
       | inl e => (w, inl e)
       | inr l => (set_timeline_events l w, inr tt)
       end.

(** [Post.safe_content] *)
Definition safe_content (self : Post) : string := sanitize_post (content self).

(** [Post.afetch_full] *)
Definition afetch_full (self : Post) : M Post :=
  objects_get posts (λ q, id q = id self).

(** [Post.create_local] *)
Definition create_local (author : Identity) (content : string)
    (summary : option string) : M Post :=
  let summary_value := default JNull (JStr <$> summary) in
  atomic (
    published <- timezone_now ;;
    post <- Post_objects_create
              (set_sensitive (JBool (truthy summary_value))
                (set_summary (if truthy summary_value then summary_value else JNull)
                  (Post_defaults author content true published))) ;;
    let post := set_object_uri (JStr (urls_object_uri post)) post in
    let post := set_url (JStr (urls_view_nice post)) post in
    Post_save post ;;;
    ret post).

(** [Post.afan_out] *)
Definition afan_out (self : Post) : M unit :=
  post <- afetch_full self ;;
  inbound <- inbound_follows (author post) ;;
  (for_each inbound (λ follow,
     if identity_local (source follow) || identity_local (target follow)
     then FanOut_objects_acreate (source_id follow) Types_post post ;;; ret tt
     else ret tt)) ;;;
  if identity_local (author post)
  then FanOut_objects_acreate (author_id post) Types_post post ;;; ret tt
  else ret tt.

(** [PostStates.handle_new] *)
Definition handle_new (instance : Post) : M PostStates :=
  afan_out instance ;;; ret fanned_out.

(** [Post.to_ap] *)
Definition to_ap (self : Post) : gmap string json :=
  let value : gmap string json :=
    <["url" := if local self then JStr (urls_view_nice self) else url self]>
    (<["as:sensitive" := sensitive self]>
    (<["to" := JStr "as:Public"]>
    (<["content" := JStr (safe_content self)]>
    (<["attributedTo" := JStr (actor_uri (author self))]>
    (<["published" := JStr (format_ld_date (published self))]>
    (<["id" := object_uri self]>
    (<["type" := JStr "Note"]> ∅))))))) in
  if truthy (summary self) then <["summary" := summary self]> value else value.

(** [Post.to_create_ap] *)
Definition to_create_ap (self : Post) : exn + gmap string json :=
  match add_str (object_uri self) "#create" with
  | inl e => inl e
  | inr create_id =>
      inr (<["object" := JObj (to_ap self)]>
          (<["actor" := JStr (actor_uri (author self))]>
          (<["id" := create_id]>
          (<["type" := JStr "Create"]> ∅))))
  end.

(** [Post.by_ap] *)
Definition by_ap (data : json) (create update : bool) : M Post :=
  data_id <- lift (subscript data "id") ;;
  found <- try_except
    (post <- objects_get posts (λ q, object_uri q = data_id) ;;
     ret (post, false))
    DoesNotExist
    (if create then
       attributed_to <- lift (subscript data "attributedTo") ;;
       author <- by_actor_uri attributed_to create ;;
       object_uri <- lift (subscript data "id") ;;
       raw_content <- lift (subscript data "content") ;;
       content <- lift (sanitize_value raw_content) ;;
       published <- timezone_now ;;
       post <- Post_objects_create
                 (set_object_uri object_uri
                    (Post_defaults author content false published)) ;;
       ret (post, true)
     else raise KeyError) ;;
  let '(post, created) := found in
  if update || created then
    raw_content <- lift (subscript data "content") ;;
    content <- lift (sanitize_value raw_content) ;;
    let post := set_content content post in
    summary <- lift (json_get data "summary" JNull) ;;
    let post := set_summary summary post in
    sensitive <- lift (json_get data "as:sensitive" (JBool false)) ;;
    let post := set_sensitive sensitive post in
    url <- lift (json_get data "url" JNull) ;;
    let post := set_url url post in
    raw_published <- lift (json_get data "published" JNull) ;;
    published <- lift (parse_ld_date raw_published) ;;
    let post := set_published published post in
    Post_save post ;;;
    ret post
  else ret post.

(** [Post.by_object_uri] *)
Definition by_object_uri (uri : json) (fetch : bool) : M Post :=
  try_except
    (objects_get posts (λ q, object_uri q = uri))
    DoesNotExist
    (if fetch then
       response <- httpx_get_ uri [("Accept", "application/json")] true ;;
       if bool_decide (200 ≤ status_code response)%Z
          && bool_decide (status_code response < 300)%Z
       then
         body <- lift (response_json response) ;;
         document <- lift (canonicalise body true) ;;
         by_ap document true true
       else raise DoesNotExist
     else raise DoesNotExist).

(** Modelled from the spec: [StatorModel.transition_perform], the forced
    transition of [stator/models.py], which is not among the sources.  The
    spec's [complete] sets [state] to the next state; a terminal state
    leaves the row not ready, any other state is ready again once its
    [try_interval] has passed. *)
Definition transition_perform (instance : Post) (s : PostStates) : M unit :=
  t <- timezone_now ;;
  write_row
    (set_scheduling s (negb (terminal s))
       ((λ i, (t + i)%Z) <$> try_interval s) instance).

(** [Post.handle_create_ap] *)
Definition handle_create_ap (data : json) : M unit :=
  actor <- lift (subscript data "actor") ;;
  object <- lift (subscript data "object") ;;
  attributed_to <- lift (subscript object "attributedTo") ;;
  if bool_decide (actor ≠ attributed_to) then raise ValueError
  else
    object <- lift (subscript data "object") ;;
    post <- by_ap object true true ;;
    local_follows <- Follow_objects_filter_target_source_local (author post) ;;
    for_each local_follows (λ follow, add_post (source follow) post) ;;;
    transition_perform post fanned_out.

(** [Post.handle_delete_ap] *)
Definition handle_delete_ap (data : json) : M unit :=
  found <- try_except
    (object <- lift (subscript data "object") ;;
     object_id <- lift (subscript object "id") ;;
     post <- by_object_uri object_id false ;;
     ret (Some post))
    DoesNotExist
    (ret None) ;;
  match found with
  | None => ret tt
  | Some post =>
      actor <- lift (subscript data "actor") ;;
      if negb (bool_decide (JStr (actor_uri (author post)) = actor))
      then raise ValueError
      else Post_delete post
  end.

(** [Post.debug_fetch] *)
Definition debug_fetch (self : Post) : M (option Post) :=
  response <- httpx_get_ (object_uri self) [("Accept", "application/json")] true ;;
  if bool_decide (200 ≤ status_code response)%Z
     && bool_decide (status_code response < 300)%Z
  then
    body <- lift (response_json response) ;;
    document <- lift (canonicalise body true) ;;
    post <- by_ap document false true ;;
    ret (Some post)
  else ret None.

(** The handler bound to each state: [handle_<state>] when the graph
    defines it. *)
Definition handler_for (s : PostStates) : option (Post → M PostStates) :=
  match s with
  | new => Some handle_new
  | fanned_out => None
  end.

(** Modelled from the spec: one execution of the scheduler on a claimed
    entity (the runner of [stator] is not among the sources).  The handler
    bound to the current state runs; the state it returns must be a declared
    edge of the graph and is then applied; a state without handler is left
    alone. *)
Definition transition_attempt (instance : Post) : M (option PostStates) :=
  match handler_for (state instance) with
  | None => ret None
  | Some handler =>
      next <- handler instance ;;
      if bool_decide (next ∈ transitions_to (state instance))
      then transition_perform instance next ;;; ret (Some next)
      else raise ValueError
  end.

End Post.

(** ** Sample data, used to run the definitions *)

(** Collaborators that do as little as possible: content is kept as it is,
    a date is printed as the text ["date"] and read back as [0], every
    request is answered [404], an unknown actor is created remote when
    asked for, and each timeline entry is appended. *)
Definition sample_collaborators : Collaborators :=
  {| sanitize_post := λ s, s;
     format_ld_date := λ _, "date";
     parse_ld_date := λ v, match v with JStr _ => inr 0%Z | _ => inl TypeError end;
     canonicalise := λ v _, inr v;
     urls_object_uri := λ p, actor_uri (author p) +:+ "posts/" +:+ pretty (id p) +:+ "/";
     urls_view_nice := λ p, actor_uri (author p) +:+ pretty (id p) +:+ "/";
     httpx_get := λ _, inr {| status_code := 404; response_json := inl ValueError |};
     Identity_by_actor_uri := λ uri create l,
       match filter (λ i, JStr (actor_uri i) = uri) l with
       | i :: _ => (l, inr i)
       | [] =>
           match uri with
           | JStr u =>
               if create
               then let i := mkIdentity (next_pk (identity_id <$> l)) u false in
                    (l ++ [i], inr i)
               else (l, inl DoesNotExist)
           | _ => (l, inl DoesNotExist)
           end
       end;
     TimelineEvent_add_post := λ i p l, inr (l ++ [mkTimelineEvent i p]) |}.

Definition alice : Identity := mkIdentity 1 "https://example.com/@alice/" true.
Definition bob : Identity := mkIdentity 2 "https://example.com/@bob/" true.
Definition carol : Identity := mkIdentity 3 "https://example.com/@carol/" true.
Definition mallory : Identity := mkIdentity 4 "https://remote.test/@mallory/" false.

(** Alice, followed by Bob and Carol. *)
Definition alice_world : World :=
  {| posts := [];
     identities := [alice; bob; carol; mallory];
     follows := [mkFollow 1 bob alice; mkFollow 2 carol alice;
                 mkFollow 3 alice bob];
     fanouts := []; timeline_events := []; now := 1000%Z; requests := [] |}.

Definition alice_post : Post :=
  set_url (JStr "https://example.com/@alice/1/")
    (set_object_uri (JStr "https://example.com/@alice/posts/1/")
       (set_id 1 (Post_defaults alice "<p>hello</p>" true 1000%Z))).

(** The row [FanOut.objects.acreate] adds for an identity and a post. *)
Definition fan_out_row (pk identity_id : nat) (p : Post) : FanOut :=
  {| fanout_id := pk; fanout_identity_id := identity_id;
     fanout_type := Types_post; subject_post_id := id p;
     fanout_state := queued |}.

Definition stored_world : World := set_posts [alice_post] alice_world.

Definition mallory_note : gmap string json :=
  <["type" := JStr "Note"]>
  (<["id" := JStr "https://remote.test/notes/1"]>
  (<["attributedTo" := JStr "https://remote.test/@mallory/"]>
  (<["content" := JStr "<p>hi</p>"]>
  (<["published" := JStr "2023-02-04T01:05:00Z"]> ∅)))).

(** A Create by Mallory for her own note. *)
Definition mallory_create : json :=
  JObj (<["type" := JStr "Create"]>
       (<["actor" := JStr "https://remote.test/@mallory/"]>
       (<["object" := JObj mallory_note]> ∅))).

(** A Create by Bob for a note attributed to Mallory. *)
Definition forged_create : json :=
  JObj (<["type" := JStr "Create"]>
       (<["actor" := JStr "https://example.com/@bob/"]>
       (<["object" := JObj mallory_note]> ∅))).

(** Mallory, a remote actor, followed by the local Alice. *)
Definition remote_world : World :=
  {| posts := [];
     identities := [alice; mallory];
     follows := [mkFollow 1 alice mallory];
     fanouts := []; timeline_events := []; now := 1000%Z; requests := [] |}.

Definition delete_of (uri actor : string) : json :=
  JObj (<["type" := JStr "Delete"]>
       (<["actor" := JStr actor]>
       (<["object" := JObj (<["id" := JStr uri]> ∅)]> ∅))).

(** * The migration [users/migrations/0013_stator_indexes.py]

    A migration is a list of operations on the project state, which maps a
    model name to its fields and options.  An operation on a model the state
    does not have raises [KeyError]: there is then no next state. *)

Module Migration_0013.

Inductive Field : Type :=
  | BooleanField (db_index : bool) (default : option bool)
  | DateTimeField (null : bool)
  | StateField
  | OtherField (description : string).

Global Instance Field_eq_dec : EqDecision Field.
Proof. solve_decision. Defined.

Record ModelState : Type := mkModelState {
  fields : gmap string Field;
  index_together : gset (list string);
}.

Inductive Operation : Type :=
  | AlterField (model_name name : string) (field : Field)
  | AlterIndexTogether (name : string) (index_together : gset (list string)).

(** What an operation makes of the model it names. *)
Definition alter_model (op : Operation) (ms : ModelState) : ModelState :=
  match op with
  | AlterField _ name field =>
      {| fields := <[name := field]> (fields ms);
         index_together := index_together ms |}
  | AlterIndexTogether _ index_together =>
      {| fields := fields ms; index_together := index_together |}
  end.

Definition model_of (op : Operation) : string :=
  match op with
  | AlterField model_name _ _ => model_name
  | AlterIndexTogether name _ => name
  end.

(** [Operation.state_forwards] *)
Definition state_forwards (op : Operation) (s : gmap string ModelState)
    : option (gmap string ModelState) :=
  match s !! model_of op with
  | Some ms => Some (<[model_of op := alter_model op ms]> s)
  | None => None
  end.

(** The operations are applied in order. *)
Fixpoint migrate (ops : list Operation) (s : gmap string ModelState)
    : option (gmap string ModelState) :=
  match ops with
  | [] => Some s
  | op :: ops' =>
      match state_forwards op s with
      | Some s' => migrate ops' s'
      | None => None
      end
  end.

Definition stator_index : list string :=
  ["state_ready"; "state_locked_until"; "state"].

(** [Migration.operations] *)
Definition operations : list Operation :=
  [ AlterField "block" "state_ready" (BooleanField true (Some true));
    AlterField "domain" "state_ready" (BooleanField true (Some true));
    AlterField "follow" "state_ready" (BooleanField true (Some true));
    AlterField "identity" "state_ready" (BooleanField true (Some true));
    AlterField "inboxmessage" "state_ready" (BooleanField true (Some true));
    AlterField "passwordreset" "state_ready" (BooleanField true (Some true));
    AlterField "report" "state_ready" (BooleanField true (Some true));
    AlterIndexTogether "domain" {[ stator_index ]};
    AlterIndexTogether "inboxmessage" {[ stator_index ]};
    AlterIndexTogether "passwordreset" {[ stator_index ]};
    AlterIndexTogether "report" {[ stator_index ]} ].

(** The models whose [state_ready] the migration alters, and those it gives
    the composite index. *)
Definition altered_models : list string :=
  ["block"; "domain"; "follow"; "identity"; "inboxmessage"; "passwordreset";
   "report"].

Definition indexed_models : list string :=
  ["domain"; "inboxmessage"; "passwordreset"; "report"].

(** What the operations, in order, make of the model named [m]. *)
Definition alter_all (ops : list Operation) (m : string) (ms : ModelState)
    : ModelState :=
  foldl (λ acc op, if bool_decide (model_of op = m) then alter_model op acc else acc)
    ms ops.

(** Sample input for the migration.  The project state it is applied to is
    the work of the migrations before it, which are not among the sources;
    this one is chosen to run the operations on: a table with the three
    scheduling columns, [state_ready] not yet indexed, and no index over
    them. *)
Definition plain_model : ModelState :=
  {| fields :=
       <["state" := StateField]>
       (<["state_ready" := BooleanField false (Some true)]>
       (<["state_locked_until" := DateTimeField true]> ∅));
     index_together := ∅ |}.

(** The sample state: the seven models the migration names, each a
    [plain_model]. *)
Definition plain_state : gmap string ModelState :=
  gset_to_gmap plain_model (list_to_set altered_models).

End Migration_0013.

Import Migration_0013.

(** * Post types: [activities/models/post_types.py]

    The keyword arguments of the pydantic models are dicts of Python values,
    here with integers and lists as well.  The constructors first complete
    their arguments and then hand them to pydantic, which is a library: the
    functions [QuestionOption_init] and [QuestionData_init] return the
    arguments as they are handed over.  [to_mastodon_json] works on a
    validated [QuestionData]. *)

Module PostTypes.

Inductive pyval : Type :=
  | PNone
  | PBool (b : bool)
  | PInt (n : Z)
  | PStr (s : string)
  | PList (l : list pyval)
  | PDict (m : gmap string pyval).

(** [bool(v)] *)
Definition truthy (v : pyval) : bool :=
  match v with
  | PNone => false
  | PBool b => b
  | PInt n => negb (n =? 0)%Z
  | PStr s => negb (bool_decide (s = ""))
  | PList l => negb (bool_decide (length l = 0))
  | PDict m => negb (bool_decide (size m = 0))
  end.

(** [v.get(k, default)]: only a dict has the method. *)
Definition get (v : pyval) (k : string) (dflt : pyval) : exn + pyval :=
  match v with
  | PDict m => inr (default dflt (m !! k))
  | _ => inl (OtherError "AttributeError")
  end.

(** [QuestionOption.__init__], up to the call of pydantic.  The default of
    the outer [get] is computed first, whether [votes] is given or not. *)
Definition QuestionOption_init (data : gmap string pyval)
    : exn + gmap string pyval :=
  match get (default (PDict ∅) (data !! "replies")) "totalItems" (PInt 0) with
  | inl e => inl e
  | inr total_items =>
      inr (<["votes" := default total_items (data !! "votes")]> data)
  end.

(** [QuestionData.__init__], up to the call of pydantic. *)
Definition QuestionData_init (data : gmap string pyval) : gmap string pyval :=
  let data :=
    <["voter_count" :=
        default
          (default (default (PInt 0) (data !! "toot:votersCount"))
             (data !! "votersCount"))
          (data !! "voter_count")]> data in
  let data :=
    match data !! "mode" with
    | Some _ => data
    | None =>
        <["mode" := match data !! "anyOf" with
                    | Some _ => PStr "anyOf"
                    | None => PStr "oneOf"
                    end]> data
    end in
  match data !! "options" with
  | Some _ => data
  | None =>
      let options := default PNone (data !! "anyOf") in
      let data := delete "anyOf" data in
      if negb (truthy options)
      then let options := default PNone (data !! "oneOf") in
           let data := delete "oneOf" data in
           <["options" := options]> data
      else <["options" := options]> data
  end.

Inductive Mode : Type := oneOf | anyOf.

Global Instance Mode_eq_dec : EqDecision Mode.
Proof. solve_decision. Defined.

(** A [datetime] of Python is aware, with a time zone, or naive, without
    one; the annotation [datetime | None] of [end_time] admits both. *)
Record pydatetime : Type := mkDatetime {
  aware : bool;
  instant : datetime;
}.

(** [a >= b] on two datetimes: an aware one and a naive one cannot be
    ordered. *)
Definition datetime_ge (a b : pydatetime) : exn + bool :=
  if bool_decide (aware a = aware b)
  then inr (bool_decide (instant b ≤ instant a)%Z)
  else inl TypeError.

(** The validated models; their [type] fields are constants. *)
Record QuestionOption : Type := mkQuestionOption {
  name : string;
  votes : Z;
}.

Record QuestionData : Type := mkQuestionData {
  mode : option Mode;
  options : option (list QuestionOption);
  voter_count : Z;
  end_time : option pydatetime;
}.

(** [PostInteraction.Types], as migration 0011 of [activities] lists
    them. *)
Inductive InteractionTypes : Type := like | boost | vote.

Global Instance InteractionTypes_eq_dec : EqDecision InteractionTypes.
Proof. solve_decision. Defined.

(** [activities.PostInteraction], as far as [to_mastodon_json] reads it;
    [value] is a nullable column. *)
Record PostInteraction : Type := mkPostInteraction {
  interaction_identity : Identity;
  interaction_post : nat;
  interaction_type : InteractionTypes;
  value : option string;
}.

(** What the loop over [enumerate(options)] has built so far: the entries
    of [value["options"]], [value["votes_count"]] and [option_map]. *)
Record PollLoop : Type := mkPollLoop {
  loop_options : list pyval;
  loop_votes_count : Z;
  option_map : gmap string nat;
}.

Definition option_entry (option : QuestionOption) : pyval :=
  PDict (<["title" := PStr (name option)]>
        (<["votes_count" := PInt (votes option)]> ∅)).

(** [for index, option in enumerate(options): ...], from [index] on. *)
Fixpoint poll_loop (index : nat) (options : list QuestionOption)
    (acc : PollLoop) : PollLoop :=
  match options with
  | [] => acc
  | option :: rest =>
      poll_loop (S index) rest
        {| loop_options := loop_options acc ++ [option_entry option];
           loop_votes_count := loop_votes_count acc + votes option;
           option_map := <[name option := index]> (option_map acc) |}
  end.

(** [post.interactions.filter(identity=identity, type=vote)], on the table
    of interactions. *)
Definition votes_of (table : list PostInteraction) (post : Post)
    (identity : Identity) : list PostInteraction :=
  filter (λ i, interaction_post i = id post
               ∧ identity_id (interaction_identity i) = identity_id identity
               ∧ interaction_type i = vote) table.

(** [[option_map[vote.value] for vote in votes if vote.value in option_map]] *)
Definition own_votes (option_map : gmap string nat)
    (votes : list PostInteraction) : list nat :=
  omap (λ vote, match value vote with
                | Some v => option_map !! v
                | None => None
                end) votes.

Section ToMastodonJson.

Context `{Collaborators}.

(** [settings.USE_TZ]: [timezone.now()] is aware when it is set and naive
    otherwise.  The settings are not among the sources. *)
Variable USE_TZ : bool.

(** [QuestionData.to_mastodon_json]; [table] holds the rows of
    [PostInteraction]. *)
Definition to_mastodon_json (self : QuestionData) (table : list PostInteraction)
    (post : Post) (identity : option Identity) : M (gmap string pyval) :=
  let multiple := bool_decide (mode self = Some anyOf) in
  expiry <-
    match end_time self with
    | Some end_time =>
        let expires_at := PStr (format_ld_date (instant end_time)) in
        t <- timezone_now ;;
        expired <- lift (datetime_ge (mkDatetime USE_TZ t) end_time) ;;
        ret (expires_at, PBool expired)
    | None => ret (PNone, PBool false)
    end ;;
  let options := default [] (options self) in
  let loop := poll_loop 0 options (mkPollLoop [] 0 ∅) in
  let '(voted, own) :=
    match identity with
    | Some identity =>
        let votes := votes_of table post identity in
        (bool_decide (identity_id (author post) = identity_id identity)
         || negb (bool_decide (length votes = 0)),
         own_votes (option_map loop) votes)
    | None => (false, [])
    end in
  ret (<["emojis" := PList []]>
      (<["options" := PList (loop_options loop)]>
      (<["own_votes" := PList ((λ i, PInt (Z.of_nat i)) <$> own)]>
      (<["voted" := PBool voted]>
      (<["voters_count" := PInt (voter_count self)]>
      (<["votes_count" := PInt (loop_votes_count loop)]>
      (<["multiple" := PBool multiple]>
      (<["expired" := expiry.2]>
      (<["expires_at" := expiry.1]>
      (<["id" := PInt (Z.of_nat (id post))]> ∅)))))))))).

End ToMastodonJson.

(** A poll with two options of the same name, and an aware end time. *)
Definition sample_question : QuestionData :=
  {| mode := Some anyOf;
     options := Some [mkQuestionOption "tea" 2; mkQuestionOption "coffee" 5;
                      mkQuestionOption "tea" 1];
     voter_count := 6;
     end_time := Some (mkDatetime true 2000%Z) |}.

(** The same poll with a naive end time. *)
Definition naive_question : QuestionData :=
  {| mode := mode sample_question;
     options := options sample_question;
     voter_count := voter_count sample_question;
     end_time := Some (mkDatetime false 2000%Z) |}.

Definition sample_votes : list PostInteraction :=
  [ mkPostInteraction bob 1 vote (Some "tea");
    mkPostInteraction bob 1 like None;
    mkPostInteraction bob 1 vote (Some "water");
    mkPostInteraction carol 1 vote (Some "coffee");
    mkPostInteraction bob 2 vote (Some "coffee") ].

End PostTypes.

(** ** More sample data *)

(** A newer version of Alice's post, as a document. *)
Definition alice_note : gmap string json :=
  <["type" := JStr "Note"]>
  (<["id" := JStr "https://example.com/@alice/posts/1/"]>
  (<["attributedTo" := JStr "https://example.com/@alice/"]>
  (<["content" := JStr "<p>edited</p>"]>
  (<["summary" := JStr "spoiler"]>
  (<["published" := JStr "2023-02-04T01:05:00Z"]> ∅))))).

Definition alice_create : json :=
  JObj (<["type" := JStr "Create"]>
       (<["actor" := JStr "https://example.com/@alice/"]>
       (<["object" := JObj alice_note]> ∅))).

(** Mallory's note without its date. *)
Definition undated_note : gmap string json :=
  <["id" := JStr "https://remote.test/notes/1"]>
  (<["attributedTo" := JStr "https://remote.test/@mallory/"]>
  (<["content" := JStr "<p>hi</p>"]> ∅)).

(** Mallory's note with [null] as its id. *)
Definition unnamed_note : gmap string json := <["id" := JNull]> mallory_note.

(** Collaborators whose server answers every request with Mallory's
    note. *)
Definition serving_collaborators : Collaborators :=
  {| sanitize_post := @sanitize_post sample_collaborators;
     format_ld_date := @format_ld_date sample_collaborators;
     parse_ld_date := @parse_ld_date sample_collaborators;
     canonicalise := @canonicalise sample_collaborators;
     urls_object_uri := @urls_object_uri sample_collaborators;
     urls_view_nice := @urls_view_nice sample_collaborators;
     httpx_get := λ _, inr {| status_code := 200;
                              response_json := inr (JObj mallory_note) |};
     Identity_by_actor_uri := @Identity_by_actor_uri sample_collaborators;
     TimelineEvent_add_post := @TimelineEvent_add_post sample_collaborators |}.

(** Arguments of a poll option that counts its votes under [replies]. *)
Definition tea_option : gmap string PostTypes.pyval :=
  <["name" := PostTypes.PStr "tea"]>
  (<["replies" :=
       PostTypes.PDict (<["totalItems" := PostTypes.PInt 4]> ∅)]> ∅).

(** Arguments of a poll option with votes and a [replies] that is a
    string. *)
Definition odd_option : gmap string PostTypes.pyval :=
  <["name" := PostTypes.PStr "tea"]>
  (<["votes" := PostTypes.PInt 3]>
  (<["replies" := PostTypes.PStr "none"]> ∅)).

(** Arguments of a poll with an empty [anyOf] and one option under
    [oneOf]. *)
Definition odd_poll : gmap string PostTypes.pyval :=
  <["type" := PostTypes.PStr "Question"]>
  (<["anyOf" := PostTypes.PList []]>
  (<["oneOf" := PostTypes.PList [PostTypes.PDict tea_option]]> ∅)).

(** * Properties *)

(** ** General facts *)

Lemma bind_inr {A B} (m : M A) (k : A → M B) (w w' : World) (x : A) :
  m w = (w', inr x) → bind m k w = k x w'.
Proof. intros Hm. unfold bind. by rewrite Hm. Qed.

Lemma filter_none {A} (P : A → Prop) `{∀ x, Decision (P x)} (l : list A) :
  Forall (λ x, ¬ P x) l → filter P l = [].
Proof.
  induction 1 as [|x l Hx _ IH]; [done|].
  by rewrite filter_cons_False.
Qed.

Lemma objects_get_none {A} (table : World → list A) (P : A → Prop)
    `{∀ x, Decision (P x)} (w : World) :
  Forall (λ x, ¬ P x) (table w) →
  objects_get table P w = (w, inl DoesNotExist).
Proof. intros Hn. unfold objects_get. by rewrite filter_none. Qed.

Lemma objects_get_one {A} (table : World → list A) (P : A → Prop)
    `{∀ x, Decision (P x)} (w : World) (x : A) :
  filter P (table w) = [x] →
  objects_get table P w = (w, inr x).
Proof. intros Hx. unfold objects_get. by rewrite Hx. Qed.

Lemma write_row_stored (p : Post) (w : World) :
  object_uri_clash p (posts w) = false →
  Exists (λ q, id q = id p) (posts w) →
  write_row p w = (set_posts (rewrite_row p (posts w)) w, inr tt).
Proof.
  intros Hclash Hin. unfold write_row.
  by rewrite Hclash, bool_decide_true.
Qed.

(** [save] checks the value of [sensitive] and writes the row. *)
Lemma Post_save_run (p : Post) (w : World) :
  Post_save p w = match BooleanField_refuses (sensitive p) with
                  | Some e => (w, inl e)
                  | None => write_row p w
                  end.
Proof. unfold Post_save. by destruct (BooleanField_refuses (sensitive p)). Qed.


Lemma transition_perform_stored (instance : Post) (s : PostStates) (w : World) :
  object_uri_clash instance (posts w) = false →
  Exists (λ q, id q = id instance) (posts w) →
  transition_perform instance s w =
    (set_posts
       (rewrite_row
          (set_scheduling s (negb (terminal s))
             ((λ i, (now w + i)%Z) <$> try_interval s) instance)
          (posts w)) w,
     inr tt).
Proof.
  intros Hclash Hin. unfold transition_perform.
  rewrite (bind_inr _ _ w w (now w)) by done.
  by apply write_row_stored.
Qed.

Lemma filter_id_rewrite_row (p p' : Post) (ps : list Post) :
  id p' = id p →
  filter (λ q, id q = id p) ps = [p] →
  filter (λ q, id q = id p) (rewrite_row p' ps) = [p'].
Proof.
  intros Hid. unfold rewrite_row. rewrite Hid.
  induction ps as [|q l IH]; [done|].
  rewrite fmap_cons, filter_cons.
  destruct (decide (id q = id p)) as [Heq|Hne].
  - rewrite filter_cons_True by done.
    intros Hrow. injection Hrow as _ Hrow. f_equal.
    clear IH. induction l as [|q' l IH]; [done|].
    rewrite filter_cons in Hrow. rewrite fmap_cons.
    destruct (decide (id q' = id p)); [done|].
    rewrite filter_cons_False by done. by apply IH.
  - rewrite filter_cons_False by done. apply IH.
Qed.

Lemma next_pk_fresh {A} (pk : A → nat) (rows : list A) :
  Forall (λ r, pk r ≠ next_pk (pk <$> rows)) rows.
Proof.
  apply Forall_forall. intros r Hr Heq.
  assert (Hle : (pk r ≤ max_list (pk <$> rows))%nat).
  { apply max_list_elem_of_le. apply list_elem_of_fmap. by exists r. }
  unfold next_pk in Heq. lia.
Qed.

Lemma rewrite_row_last (p p' : Post) (ps : list Post) :
  id p = id p' →
  Forall (λ q, id q ≠ id p') ps →
  rewrite_row p' (ps ++ [p]) = ps ++ [p'].
Proof.
  intros Hid Hfresh. unfold rewrite_row. rewrite fmap_app. f_equal.
  - induction Hfresh as [|q l Hq _ IH]; [done|].
    rewrite fmap_cons, IH. by rewrite decide_False.
  - simpl. by rewrite decide_True.
Qed.


Lemma filter_last_only {A} (P : A → Prop) `{∀ x, Decision (P x)}
    (l : list A) (x : A) :
  Forall (λ y, ¬ P y) l → P x → filter P (l ++ [x]) = [x].
Proof.
  intros Hl Hx. rewrite filter_app, (filter_none P l Hl). simpl.
  by rewrite filter_cons_True.
Qed.

Section PostProperties.

Context `{Collaborators}.

(** *** Outbound documents *)

Lemma to_ap_dom (p : Post) :
  dom (to_ap p) =
    ({[ "type"; "id"; "published"; "attributedTo"; "content"; "to";
        "as:sensitive"; "url" ]} : gset string)
    ∪ (if truthy (summary p) then {[ "summary" ]} else ∅).
Proof.
  unfold to_ap. destruct (truthy (summary p));
    rewrite !dom_insert_L, dom_empty_L; set_solver.
Qed.


(** C10.  Whatever the visibility of a post and whoever it is addressed to,
    the document [to_ap] returns has [as:Public] under the key [to]. *)
Theorem to_ap_to_is_public (p : Post) :
  to_ap p !! "to" = Some (JStr "as:Public").
Proof.
  unfold to_ap. destruct (truthy (summary p)); by simplify_map_eq.
Qed.

(** C4, as the code has it.  For every post the document [to_ap] returns
    has the keys [type], [id], [published], [attributedTo], [content], [to],
    [as:sensitive] and [url], and the key [summary] exactly when the post has
    a summary; its [type] is [Note] and its [id] the post's object URI.  For
    a post whose object URI is a string, [to_create_ap] wraps the note: the
    envelope has the type [Create], the note's id followed by [#create] as
    id, the author's actor URI as actor and the note as object.  For a post
    whose object URI is not a string, it raises [TypeError]. *)
Theorem to_ap_and_to_create_ap_shape (p : Post) :
  dom (to_ap p) =
    ({[ "type"; "id"; "published"; "attributedTo"; "content"; "to";
        "as:sensitive"; "url" ]} : gset string)
    ∪ (if truthy (summary p) then {[ "summary" ]} else ∅)
  ∧ ("summary" ∈ dom (to_ap p) ↔ truthy (summary p) = true)
  ∧ to_ap p !! "type" = Some (JStr "Note")
  ∧ to_ap p !! "id" = Some (object_uri p)
  ∧ (∀ note_id, object_uri p = JStr note_id →
       ∃ envelope,
         to_create_ap p = inr envelope
         ∧ dom envelope = {[ "type"; "id"; "actor"; "object" ]}
         ∧ envelope !! "type" = Some (JStr "Create")
         ∧ envelope !! "id" = Some (JStr (note_id +:+ "#create"))
         ∧ envelope !! "actor" = Some (JStr (actor_uri (author p)))
         ∧ envelope !! "object" = Some (JObj (to_ap p)))
  ∧ ((∀ note_id, object_uri p ≠ JStr note_id) →
       to_create_ap p = inl TypeError).
Proof.
  split; [apply to_ap_dom|].
  split.
  { rewrite elem_of_dom. unfold to_ap.
    destruct (truthy (summary p)); simplify_map_eq; split; done. }
  split.
  { unfold to_ap. destruct (truthy (summary p)); by simplify_map_eq. }
  split.
  { unfold to_ap. destruct (truthy (summary p)); by simplify_map_eq. }
  split.
  - intros note_id Hid. unfold to_create_ap. rewrite Hid. simpl.
    eexists. split; [reflexivity|].
    split; [rewrite !dom_insert_L, dom_empty_L; set_solver|].
    repeat split; by simplify_map_eq.
  - intros Hid. unfold to_create_ap.
    destruct (object_uri p) as [|b|s|m]; try reflexivity.
    by destruct (Hid s).
Qed.

(** *** Inbound activities *)

(** C2.  A Create whose actor is not the [attributedTo] of its object is
    rejected with [ValueError], and the store is left as it was: no post is
    created. *)
Theorem handle_create_ap_actor_mismatch
    (data actor object attributed_to : json) (w : World) :
  subscript data "actor" = inr actor →
  subscript data "object" = inr object →
  subscript object "attributedTo" = inr attributed_to →
  actor ≠ attributed_to →
  handle_create_ap data w = (w, inl ValueError).
Proof.
  intros Ha Ho Hat Hne.
  unfold handle_create_ap, bind, lift. rewrite Ha, Ho, Hat.
  by rewrite bool_decide_true.
Qed.

(** C5.  A Delete whose [object.id] is the object URI of no stored post
    returns normally and leaves the store as it was. *)
Theorem handle_delete_ap_unknown_post
    (data object object_id : json) (w : World) :
  subscript data "object" = inr object →
  subscript object "id" = inr object_id →
  Forall (λ p, object_uri p ≠ object_id) (posts w) →
  handle_delete_ap data w = (w, inr tt).
Proof.
  intros Ho Hi Hnone.
  unfold handle_delete_ap, by_object_uri, bind, try_except, lift.
  rewrite Ho, Hi. cbn beta iota.
  rewrite (objects_get_none posts (λ q, object_uri q = object_id) w Hnone).
  simpl. reflexivity.
Qed.

(** C6.  A Delete whose [object.id] names a stored post is checked against
    the post's author: with another actor it is rejected with [ValueError]
    and the store is left as it was; with the author's actor URI the post's
    row is removed.  So the row is gone afterwards only if the actor is the
    author's. *)
Theorem handle_delete_ap_checks_actor
    (data object object_id actor : json) (post : Post) (w : World) :
  subscript data "object" = inr object →
  subscript object "id" = inr object_id →
  filter (λ p, object_uri p = object_id) (posts w) = [post] →
  subscript data "actor" = inr actor →
  (actor ≠ JStr (actor_uri (author post)) →
     handle_delete_ap data w = (w, inl ValueError))
  ∧ (actor = JStr (actor_uri (author post)) →
       handle_delete_ap data w
         = (set_posts (filter (λ q, id q ≠ id post) (posts w)) w, inr tt)
       ∧ post ∉ filter (λ q, id q ≠ id post) (posts w))
  ∧ (∀ w' r, handle_delete_ap data w = (w', r) →
       post ∉ posts w' → actor = JStr (actor_uri (author post))).
Proof.
  intros Ho Hi Hone Ha.
  assert (Hrun : handle_delete_ap data w =
            if negb (bool_decide (JStr (actor_uri (author post)) = actor))
            then (w, inl ValueError)
            else (set_posts (filter (λ q, id q ≠ id post) (posts w)) w, inr tt)).
  { unfold handle_delete_ap, by_object_uri, bind, try_except, lift.
    rewrite Ho, Hi. cbn beta iota.
    rewrite (objects_get_one posts (λ q, object_uri q = object_id) w post Hone).
    simpl. rewrite Ha.
    by destruct (bool_decide (JStr (actor_uri (author post)) = actor)). }
  assert (Hin : post ∈ posts w).
  { assert (Hin' : post ∈ filter (λ p, object_uri p = object_id) (posts w))
      by (rewrite Hone; set_solver).
    by apply list_elem_of_filter in Hin' as [_ ?]. }
  split; [|split].
  - intros Hne. rewrite Hrun, bool_decide_false; [done|congruence].
  - intros ->. rewrite Hrun, bool_decide_true by done. split; [done|].
    intros Hin'. by apply list_elem_of_filter in Hin' as [? _].
  - intros w' r Hres Hgone. rewrite Hrun in Hres.
    destruct (decide (JStr (actor_uri (author post)) = actor)) as [<-|Hne]; [done|].
    rewrite bool_decide_false in Hres by done. simpl in Hres.
    by injection Hres as <- _.
Qed.

(** *** Remote fetch *)

(** C7.  When no stored post has the URI, [by_object_uri] with [fetch] sends
    one request: a GET of the URI with the header [Accept: application/json],
    following redirects.  A response whose status is not in 200..299 makes
    the lookup raise [DoesNotExist] and creates no post; only a response in
    that range has its body canonicalised and handed to [by_ap].  Without
    [fetch] nothing is sent. *)
Theorem by_object_uri_fetch (uri : json) (w : World) :
  Forall (λ p, object_uri p ≠ uri) (posts w) →
  let request := {| req_method := "GET"; req_url := uri;
                    req_headers := [("Accept", "application/json")];
                    req_follow_redirects := true |} in
  let w1 := set_requests (requests w ++ [request]) w in
  by_object_uri uri false w = (w, inl DoesNotExist)
  ∧ posts w1 = posts w
  ∧ (∀ e, httpx_get request = inl e →
       by_object_uri uri true w = (w1, inl e))
  ∧ (∀ response, httpx_get request = inr response →
       (¬ (200 ≤ status_code response < 300)%Z →
          by_object_uri uri true w = (w1, inl DoesNotExist))
       ∧ ((200 ≤ status_code response < 300)%Z →
            by_object_uri uri true w =
              match response_json response with
              | inl e => (w1, inl e)
              | inr body =>
                  match canonicalise body true with
                  | inl e => (w1, inl e)
                  | inr document => by_ap document true true w1
                  end
              end)).
Proof.
  intros Hnone request w1.
  assert (Hget := objects_get_none posts (λ q, object_uri q = uri) w Hnone).
  split; [|split; [done|split]].
  - unfold by_object_uri, try_except. by rewrite Hget.
  - intros e He. unfold by_object_uri, try_except, bind, httpx_get_.
    rewrite Hget. cbn beta iota. fold request. by rewrite He.
  - intros response Hresp.
    assert (Hrun : by_object_uri uri true w =
              if bool_decide (200 ≤ status_code response)%Z
                 && bool_decide (status_code response < 300)%Z
              then match response_json response with
                   | inl e => (w1, inl e)
                   | inr body =>
                       match canonicalise body true with
                       | inl e => (w1, inl e)
                       | inr document => by_ap document true true w1
                       end
                   end
              else (w1, inl DoesNotExist)).
    { unfold by_object_uri, try_except, bind, httpx_get_, lift.
      rewrite Hget. cbn beta iota. fold request. rewrite Hresp.
      destruct (bool_decide _ && bool_decide _); [|done].
      fold w1. destruct (response_json response) as [e|body]; [done|].
      by destruct (canonicalise body true). }
    split.
    + intros Hout. rewrite Hrun.
      destruct (decide (200 ≤ status_code response)%Z);
        destruct (decide (status_code response < 300)%Z);
        rewrite ?(bool_decide_true (_ ≤ _)%Z), ?(bool_decide_false (_ ≤ _)%Z),
          ?(bool_decide_true (_ < _)%Z), ?(bool_decide_false (_ < _)%Z) by done;
        try done.
      lia.
    + intros [Hlo Hhi]. rewrite Hrun.
      by rewrite !bool_decide_true by done.
Qed.

(** *** Fan-out *)
(** What [afan_out] adds to the table, for the follows it iterates over. *)
Lemma fan_out_loop (post : Post) (inbound : list Follow) (w : World) :
  Forall (λ f, identity_local (source f) = true) inbound →
  ∃ rows,
    for_each inbound (λ follow,
      if identity_local (source follow) || identity_local (target follow)
      then FanOut_objects_acreate (source_id follow) Types_post post ;;; ret tt
      else ret tt) w
    = (set_fanouts (fanouts w ++ rows) w, inr tt)
    ∧ fanout_identity_id <$> rows = source_id <$> inbound
    ∧ Forall (λ r, fanout_type r = Types_post ∧ subject_post_id r = id post) rows.
Proof.
  intros Hlocal. revert w.
  induction Hlocal as [|f inbound Hf _ IH]; intros w.
  - exists []. simpl. unfold ret. rewrite app_nil_r. by destruct w.
  - set (r := fan_out_row (next_pk (fanout_id <$> fanouts w)) (source_id f) post).
    destruct (IH (set_fanouts (fanouts w ++ [r]) w)) as (rows & Hrun & Hids & Hrows).
    exists (r :: rows). simpl for_each. rewrite Hf. simpl orb. cbn iota.
    assert (Hstep :
      (FanOut_objects_acreate (source_id f) Types_post post ;;; ret tt) w
      = (set_fanouts (fanouts w ++ [r]) w, inr tt)) by reflexivity.
    rewrite (bind_inr _ _ _ _ _ Hstep), Hrun.
    split; [simpl; by rewrite <- app_assoc|].
    split; [by rewrite !fmap_cons, Hids|].
    by constructor.
Qed.

(** C1.  Let a post be stored, its author be local and be followed by
    exactly two identities, both local.  Then [handle_new] returns
    [fanned_out] and adds exactly three rows to the FanOut table, of type
    [post] and about this post: one for each follower and one for the
    author.  The scheduler's step moves the post from [new] to [fanned_out],
    an edge of the graph, and a second step finds no handler and changes
    nothing. *)
Theorem handle_new_fans_out
    (w : World) (post : Post) (A F1 F2 : Identity) (f1 f2 : Follow) :
  filter (λ q, id q = id post) (posts w) = [post] →
  state post = new →
  object_uri_clash post (posts w) = false →
  author post = A →
  identity_local A = true →
  filter (λ f, target_id f = identity_id A) (follows w) = [f1; f2] →
  source f1 = F1 → identity_local F1 = true →
  source f2 = F2 → identity_local F2 = true →
  ∃ w' r1 r2 r3,
    handle_new post w = (w', inr fanned_out)
    ∧ posts w' = posts w
    ∧ fanouts w' = fanouts w ++ [r1; r2; r3]
    ∧ length (fanouts w') = length (fanouts w) + 3
    ∧ fanout_identity_id <$> [r1; r2; r3]
        = [identity_id F1; identity_id F2; identity_id A]
    ∧ Forall (λ r, fanout_type r = Types_post ∧ subject_post_id r = id post)
        [r1; r2; r3]
    ∧ fanned_out ∈ transitions_to new
    ∧ ∃ w'' post',
        transition_attempt post w = (w'', inr (Some fanned_out))
        ∧ fanouts w'' = fanouts w'
        ∧ filter (λ q, id q = id post) (posts w'') = [post']
        ∧ state post' = fanned_out
        ∧ transition_attempt post' w'' = (w'', inr None).
Proof.
  intros Hrow Hstate Hclash HA HlocalA Hfollows HF1 HlF1 HF2 HlF2.
  destruct (fan_out_loop post [f1; f2] w) as (rows & Hloop & Hids & Hrows).
  { repeat constructor; congruence. }
  destruct rows as [|r1 [|r2 [|? ?]]]; try discriminate Hids.
  set (r3 := fan_out_row (next_pk (fanout_id <$> (fanouts w ++ [r1; r2])))
               (author_id post) post).
  set (w' := set_fanouts (fanouts w ++ [r1; r2; r3]) w).
  assert (Hnew : handle_new post w = (w', inr fanned_out)).
  { assert (Hfetch : afetch_full post w = (w, inr post))
      by apply (objects_get_one posts (λ q, id q = id post) w post Hrow).
    assert (Hinbound : inbound_follows (author post) w = (w, inr [f1; f2]))
      by (unfold inbound_follows; by rewrite HA, Hfollows).
    unfold handle_new. apply bind_inr with (w' := w') (x := tt).
    unfold afan_out.
    rewrite (bind_inr _ _ _ _ _ Hfetch), (bind_inr _ _ _ _ _ Hinbound),
      (bind_inr _ _ _ _ _ Hloop).
    rewrite HA, HlocalA. subst w' r3. unfold bind, FanOut_objects_acreate, ret.
    unfold fan_out_row. simpl. by rewrite <- app_assoc. }
  exists w', r1, r2, r3.
  split; [done|]. split; [done|]. split; [done|].
  split; [subst w'; simpl; rewrite length_app; simpl; lia|].
  split.
  { simpl in Hids |- *. injection Hids as -> ->.
    unfold source_id, author_id. by rewrite HF1, HF2, HA. }
  split.
  { apply Forall_cons in Hrows as [? Hrows]. apply Forall_cons in Hrows as [? _].
    constructor; [done|]. constructor; [done|]. constructor; [done|]. constructor. }
  split; [simpl; set_solver|].
  set (post' := set_scheduling fanned_out false None post).
  set (w'' := set_posts (rewrite_row post' (posts w)) w').
  assert (Hin : Exists (λ q, id q = id post) (posts w)).
  { assert (Hin : post ∈ filter (λ q, id q = id post) (posts w))
      by (rewrite Hrow; set_solver).
    apply list_elem_of_filter in Hin as [_ Hin].
    apply Exists_exists. by exists post. }
  exists w'', post'.
  split.
  { unfold transition_attempt. rewrite Hstate. unfold handler_for. cbn beta iota.
    rewrite (bind_inr _ _ _ _ _ Hnew).
    rewrite bool_decide_true by (simpl; set_solver).
    by rewrite (bind_inr _ _ _ _ _ (transition_perform_stored post fanned_out w' Hclash Hin)). }
  split; [done|].
  split; [by apply filter_id_rewrite_row|].
  split; [done|].
  reflexivity.
Qed.

(** *** Round trip *)



(** *** Inbound Create *)

Lemma write_row_inv (p : Post) (w w' : World) :
  write_row p w = (w', inr tt) →
  p ∈ posts w'
  ∧ (∀ q, q ∈ posts w' → id q = id p → q = p)
  ∧ fanouts w' = fanouts w
  ∧ follows w' = follows w.
Proof.
  unfold write_row. destruct (object_uri_clash p (posts w)); [done|].
  destruct (bool_decide _) eqn:Hex; intros Hres; injection Hres as <-; simpl.
  - apply bool_decide_eq_true_1, Exists_exists in Hex as (q0 & Hq0 & Hid0).
    split; [|split; [|done]].
    + unfold rewrite_row. apply list_elem_of_fmap. exists q0.
      by rewrite decide_True.
    + intros q Hq Hid. unfold rewrite_row in Hq.
      apply list_elem_of_fmap in Hq as (q1 & -> & _).
      destruct (decide (id q1 = id p)); [done|]. by destruct n.
  - apply bool_decide_eq_false_1 in Hex.
    split; [set_solver|split; [|done]].
    intros q Hq Hid. apply elem_of_app in Hq as [Hq|Hq].
    + destruct Hex. apply Exists_exists. by exists q.
    + by apply list_elem_of_singleton in Hq.
Qed.

(** A save that succeeds is a write of the row. *)
Lemma Post_save_written (p : Post) (w w' : World) :
  Post_save p w = (w', inr tt) →
  BooleanField_refuses (sensitive p) = None ∧ write_row p w = (w', inr tt).
Proof.
  rewrite Post_save_run. by destruct (BooleanField_refuses (sensitive p)).
Qed.

Lemma Post_save_inv (p : Post) (w w' : World) :
  Post_save p w = (w', inr tt) →
  p ∈ posts w'
  ∧ (∀ q, q ∈ posts w' → id q = id p → q = p)
  ∧ fanouts w' = fanouts w
  ∧ follows w' = follows w.
Proof. intros [_ Hwrite]%Post_save_written. by apply write_row_inv. Qed.

Lemma by_ap_create_update_inv (data : json) (w w1 : World) (post : Post) :
  by_ap data true true w = (w1, inr post) →
  ∃ data_id,
    subscript data "id" = inr data_id
    ∧ object_uri post = data_id
    ∧ post ∈ posts w1
    ∧ (∀ q, q ∈ posts w1 → id q = id post → q = post)
    ∧ fanouts w1 = fanouts w
    ∧ follows w1 = follows w
    ∧ (Forall (λ q, object_uri q ≠ data_id) (posts w) →
         state post = new ∧ state_ready post = true ∧ local post = false).
Proof.
  unfold by_ap. unfold bind at 1. unfold lift at 1.
  destruct (subscript data "id") as [?|data_id] eqn:Hid; [done|].
  unfold bind at 1.
  destruct (try_except _ _ _ w) as [w0 [e|[found created]]] eqn:Hfound; [done|].
  rewrite orb_true_l.
  assert (Hf : object_uri found = data_id
               ∧ fanouts w0 = fanouts w ∧ follows w0 = follows w
               ∧ (Forall (λ q, object_uri q ≠ data_id) (posts w) →
                    state found = new ∧ state_ready found = true
                    ∧ local found = false)).
  { revert Hfound.
    unfold try_except, bind, objects_get, lift, by_actor_uri, timezone_now,
      Post_objects_create, ret.
    destruct (filter (λ q, object_uri q = data_id) (posts w))
      as [|q [|q' l]] eqn:Hfilter; simpl.
    - destruct (subscript data "attributedTo"); [done|].
      destruct (Identity_by_actor_uri _ _ _) as [l [e|i]]; [done|].
      destruct (subscript data "content") as [e|raw]; [done|].
      destruct (sanitize_value raw); [done|].
      destruct (object_uri_clash _ _); [done|].
      intros Hres. injection Hres as <- <- <-. done.
    - intros Hres. injection Hres as <- <- <-.
      assert (Hq : q ∈ filter (λ q, object_uri q = data_id) (posts w))
        by (rewrite Hfilter; set_solver).
      apply list_elem_of_filter in Hq as [Hq Hin].
      split; [done|]. split; [done|]. split; [done|].
      intros Hnone. rewrite Forall_forall in Hnone. by destruct (Hnone q Hin).
    - done. }
  destruct Hf as (Huri & Hfan & Hfol & Hstate).
  unfold bind, lift.
  destruct (subscript data "content") as [e|raw]; [done|].
  destruct (sanitize_value raw); [done|].
  destruct (json_get data "summary" JNull); [done|].
  destruct (json_get data "as:sensitive" (JBool false)); [done|].
  destruct (json_get data "url" JNull); [done|].
  destruct (json_get data "published" JNull); [done|].
  destruct (parse_ld_date _); [done|].
  destruct (Post_save _ w0) as [w2 [e|[]]] eqn:Hsave; [done|].
  unfold ret. intros Hres. injection Hres as <- <-.
  apply Post_save_inv in Hsave as (Hin & Hsame & Hfan' & Hfol').
  exists data_id.
  split; [done|]. split; [done|]. split; [done|]. split; [done|].
  split; [congruence|]. split; [congruence|]. done.
Qed.

Lemma add_post_loop_frame (l : list Follow) (p : Post) (w w' : World) :
  for_each l (λ follow, add_post (source follow) p) w = (w', inr tt) →
  posts w' = posts w ∧ fanouts w' = fanouts w.
Proof.
  revert w. induction l as [|f l IH]; intros w; simpl.
  - unfold ret. by intros [= <-].
  - unfold bind at 1. unfold add_post at 1.
    destruct (TimelineEvent_add_post _ _ _); [done|].
    intros Hrest. apply IH in Hrest. done.
Qed.

(** C9, as the code has it.  A Create that [handle_create_ap] accepts has
    its post stored by [by_ap]; a post that was not yet stored is created
    remote, in the initial state [new] and ready for the scheduler.  Before
    it returns, the handler forces the post into [fanned_out].  In the store
    it leaves, every row with the post's primary key is in [fanned_out],
    a terminal state without handler, on which the scheduler's step does
    nothing; and the handler has added no FanOut row. *)
Theorem handle_create_ap_forces_fanned_out (data : json) (w w' : World) :
  handle_create_ap data w = (w', inr tt) →
  ∃ object object_id w1 post,
    subscript data "object" = inr object
    ∧ subscript object "id" = inr object_id
    ∧ by_ap object true true w = (w1, inr post)
    ∧ object_uri post = object_id
    ∧ post ∈ posts w1
    ∧ (Forall (λ q, object_uri q ≠ object_id) (posts w) →
         state post = new ∧ state_ready post = true ∧ local post = false)
    ∧ set_scheduling fanned_out false None post ∈ posts w'
    ∧ (∀ q, q ∈ posts w' → id q = id post → state q = fanned_out)
    ∧ fanouts w' = fanouts w
    ∧ terminal fanned_out = true
    ∧ transition_attempt (set_scheduling fanned_out false None post) w'
      = (w', inr None).
Proof.
  unfold handle_create_ap. unfold bind at 1. unfold lift at 1.
  destruct (subscript data "actor") as [?|actor]; [done|].
  unfold bind at 1. unfold lift at 1.
  destruct (subscript data "object") as [?|object] eqn:Hobject; [done|].
  unfold bind at 1. unfold lift at 1.
  destruct (subscript object "attributedTo") as [?|attributed_to]; [done|].
  destruct (bool_decide (actor ≠ attributed_to)); [done|].
  rewrite (bind_inr _ _ w w object) by done.
  unfold bind at 1.
  destruct (by_ap object true true w) as [w1 [?|post]] eqn:Hby_ap; [done|].
  rewrite (bind_inr _ _ w1 w1 _) by done.
  unfold bind at 1.
  destruct (for_each _ _ w1) as [w2 [?|[]]] eqn:Hloop; [done|].
  intros Hperform.
  apply by_ap_create_update_inv in Hby_ap as Hinv.
  destruct Hinv as (object_id & Hid & Huri & Hin & _ & Hfan & _ & Hstate).
  apply add_post_loop_frame in Hloop as [Hposts Hfan2].
  unfold transition_perform in Hperform.
  rewrite (bind_inr _ _ w2 w2 (now w2)) in Hperform by done.
  simpl in Hperform.
  apply write_row_inv in Hperform as (Hin' & Hsame & Hfan' & _).
  exists object, object_id, w1, post.
  split; [done|]. split; [done|]. split; [done|]. split; [done|].
  split; [done|]. split; [done|]. split; [done|].
  split; [intros q Hq Hidq; by rewrite (Hsame q Hq Hidq)|].
  split; [congruence|]. split; done.
Qed.

End PostProperties.

(** ** The theorems at work on sample data *)

(** C4, the claim as it stands, fails: the object URI of a post is a
    nullable column, [by_ap] stores a post without one for a note whose id
    is [null], and for that post [to_create_ap] raises [TypeError]: there is
    no envelope. *)
Lemma to_create_ap_without_object_uri :
  ∃ w post,
    @by_ap sample_collaborators (JObj unnamed_note) true true remote_world
    = (w, inr post)
    ∧ post ∈ posts w
    ∧ object_uri post = JNull
    ∧ @to_create_ap sample_collaborators post = inl TypeError.
Proof.
  eexists _, _.
  split; [vm_compute; reflexivity|].
  split; [apply list_elem_of_singleton; reflexivity|].
  split; reflexivity.
Qed.

(** C9, the claim as it stands, fails: the post of an accepted Create is
    in the state [new], ready, in the store that [by_ap] leaves inside the
    handler, and a scheduler step on that store runs the fan-out handler and
    adds a FanOut row for the local follower. *)
Lemma remote_post_is_stored_new_first :
  ∃ object w1 post w2 w',
    subscript mallory_create "object" = inr object
    ∧ @by_ap sample_collaborators object true true remote_world = (w1, inr post)
    ∧ @handle_create_ap sample_collaborators mallory_create remote_world
      = (w', inr tt)
    ∧ post ∈ posts w1
    ∧ local post = false
    ∧ state post = new
    ∧ state_ready post = true
    ∧ fanouts w1 = []
    ∧ transition_attempt post w1 = (w2, inr (Some fanned_out))
    ∧ length (fanouts w2) = 1.
Proof.
  eexists _, _, _, _, _.
  split; [reflexivity|].
  split; [vm_compute; reflexivity|].
  split; [vm_compute; reflexivity|].
  split; [apply list_elem_of_singleton; reflexivity|].
  split; [reflexivity|]. split; [reflexivity|]. split; [reflexivity|].
  split; [reflexivity|].
  split; [vm_compute; reflexivity|].
  reflexivity.
Qed.

(** ** The migration *)

Lemma migrate_lookup (ops : list Operation) (s s' : gmap string ModelState) :
  migrate ops s = Some s' →
  ∀ m, s' !! m = alter_all ops m <$> s !! m.
Proof.
  revert s. induction ops as [|op ops IH]; intros s; simpl.
  - intros [= <-] m. by destruct (s !! m).
  - unfold state_forwards.
    destruct (s !! model_of op) as [ms|] eqn:Hms; [|done].
    intros Hrest m. rewrite (IH _ Hrest m). unfold alter_all. simpl.
    destruct (decide (model_of op = m)) as [<-|Hne].
    + by rewrite lookup_insert_eq, Hms, bool_decide_true.
    + by rewrite lookup_insert_ne, bool_decide_false.
Qed.

Lemma migrate_defined (ops : list Operation) (s s' : gmap string ModelState) :
  migrate ops s = Some s' →
  ∀ op, op ∈ ops → is_Some (s !! model_of op).
Proof.
  revert s. induction ops as [|op ops IH]; intros s; simpl.
  - intros _ op' Hin. by apply elem_of_nil in Hin.
  - unfold state_forwards.
    destruct (s !! model_of op) as [ms|] eqn:Hms; [|done].
    intros Hrest op' Hin. apply elem_of_cons in Hin as [->|Hin]; [by eexists|].
    destruct (IH _ Hrest op' Hin) as [ms' Hms'].
    destruct (decide (model_of op = model_of op')) as [Heq|Hne].
    + rewrite <- Heq. by eexists.
    + rewrite lookup_insert_ne in Hms' by done. by eexists.
Qed.

(** The migration runs on every state that has the models it names. *)
Lemma migrate_runs (ops : list Operation) (s : gmap string ModelState) :
  (∀ op, op ∈ ops → is_Some (s !! model_of op)) →
  is_Some (migrate ops s).
Proof.
  revert s. induction ops as [|op ops IH]; intros s Hall; simpl.
  - by eexists.
  - unfold state_forwards.
    destruct (Hall op) as [ms Hms]; [by left|]. rewrite Hms.
    apply IH. intros op' Hin.
    apply lookup_insert_is_Some'. right. apply Hall. by right.
Qed.

Lemma plain_state_lookup (m : string) :
  m ∈ altered_models → plain_state !! m = Some plain_model.
Proof.
  intros Hm. unfold plain_state.
  apply lookup_gset_to_gmap_Some. split; [|done].
  by apply elem_of_list_to_set.
Qed.

Lemma plain_state_migrates : is_Some (migrate operations plain_state).
Proof.
  apply migrate_runs. intros op Hop.
  rewrite plain_state_lookup; [by eexists|].
  unfold operations in Hop. unfold altered_models.
  repeat (apply elem_of_cons in Hop as [->|Hop]; [cbn [model_of]; repeat constructor|]).
  by apply elem_of_nil in Hop.
Qed.

Ltac eval_bool_decide :=
  repeat match goal with
    | |- context [bool_decide (?a = ?b)] =>
        let v := eval vm_compute in (bool_decide (a = b)) in
        change (bool_decide (a = b)) with v
    end.

Lemma not_elem_of_strings (m : string) (l : list string) :
  Forall (λ x, m ≠ x) l → m ∉ l.
Proof.
  intros Hall Hin. rewrite Forall_forall in Hall. by apply (Hall m).
Qed.

Lemma alter_all_altered (m : string) (ms : ModelState) :
  m ∈ altered_models →
  alter_all operations m ms =
    {| fields := <["state_ready" := BooleanField true (Some true)]> (fields ms);
       index_together :=
         if decide (m ∈ indexed_models) then {[ stator_index ]}
         else index_together ms |}.
Proof.
  intros Hm. unfold altered_models in Hm.
  repeat (apply elem_of_cons in Hm as [->|Hm];
    [ unfold alter_all, operations; cbn [foldl model_of]; eval_bool_decide;
      cbn [alter_model fields index_together];
      first [ rewrite decide_True by (unfold indexed_models; repeat constructor)
            | rewrite decide_False
                by (apply not_elem_of_strings; unfold indexed_models;
                    repeat (constructor; [discriminate|]); constructor) ];
      reflexivity
    | ]).
  by apply elem_of_nil in Hm.
Qed.

Lemma alter_all_other (m : string) (ms : ModelState) :
  m ∉ altered_models → alter_all operations m ms = ms.
Proof.
  intros Hm.
  assert (Hne : ∀ x, x ∈ altered_models → x ≠ m) by (intros x Hx ->; done).
  unfold alter_all, operations. cbn [foldl model_of].
  repeat (rewrite bool_decide_false by (apply Hne; unfold altered_models;
                                        repeat constructor)).
  reflexivity.
Qed.

(** C8.  What the migration does, whatever the project state before it:
    it declares [state_ready] an indexed boolean that defaults to true on
    block, domain, follow, identity, inboxmessage, passwordreset and report,
    and sets the index over [state_ready], [state_locked_until] and [state]
    on domain, inboxmessage, passwordreset and report.  On block, follow and
    identity it leaves the indexes as they were: a table among these three
    has the composite index after the migration only if it had it before.
    It touches no other model and no other field. *)
Theorem migration_0013_effect (s s' : gmap string ModelState) :
  migrate operations s = Some s' →
  (∀ m, m ∈ altered_models →
     ∃ ms ms',
       s !! m = Some ms ∧ s' !! m = Some ms'
       ∧ fields ms' = <["state_ready" := BooleanField true (Some true)]> (fields ms)
       ∧ index_together ms' =
           if decide (m ∈ indexed_models) then {[ stator_index ]}
           else index_together ms)
  ∧ (∀ m, m ∉ altered_models → s' !! m = s !! m).
Proof.
  intros Hrun.
  assert (Hlookup := migrate_lookup _ _ _ Hrun).
  assert (Hdefined := migrate_defined _ _ _ Hrun).
  split.
  - intros m Hm.
    assert (Hop : AlterField m "state_ready" (BooleanField true (Some true))
                  ∈ operations).
    { unfold altered_models in Hm. unfold operations.
      repeat (apply elem_of_cons in Hm as [->|Hm]; [repeat constructor|]).
      by apply elem_of_nil in Hm. }
    destruct (Hdefined _ Hop) as [ms Hms]. cbn [model_of] in Hms.
    exists ms, (alter_all operations m ms).
    split; [done|]. split; [by rewrite Hlookup, Hms|].
    by rewrite alter_all_altered.
  - intros m Hm. rewrite Hlookup.
    destruct (s !! m) as [ms|]; [|done].
    cbn [fmap option_fmap option_map]. by rewrite alter_all_other.
Qed.

Lemma migration_0013_effect_witness :
  ∃ s',
    migrate operations plain_state = Some s'
    ∧ (∃ ms, s' !! "report" = Some ms ∧ index_together ms = {[ stator_index ]})
    ∧ (∃ ms, s' !! "block" = Some ms
             ∧ fields ms !! "state_ready" = Some (BooleanField true (Some true))
             ∧ index_together ms = ∅)
    ∧ (∃ ms, s' !! "follow" = Some ms ∧ index_together ms = ∅)
    ∧ (∃ ms, s' !! "identity" = Some ms ∧ index_together ms = ∅)
    ∧ s' !! "post" = None.
Proof.
  destruct plain_state_migrates as [s' Hrun].
  exists s'. split; [exact Hrun|].
  destruct (migration_0013_effect plain_state s' Hrun) as [Haltered Hother].
  assert (Hskipped : ∀ m, m ∈ altered_models → m ∉ indexed_models →
            ∃ ms', s' !! m = Some ms'
                   ∧ fields ms' !! "state_ready"
                     = Some (BooleanField true (Some true))
                   ∧ index_together ms' = ∅).
  { intros m Hm Hnot.
    destruct (Haltered m Hm) as (ms & ms' & Hms & Hms' & Hfields & Hindex).
    exists ms'. split; [exact Hms'|].
    split; [rewrite Hfields; apply lookup_insert_eq|].
    rewrite Hindex, decide_False by exact Hnot.
    rewrite plain_state_lookup in Hms by exact Hm.
    injection Hms as <-. reflexivity. }
  assert (Hnot : ∀ m, Forall (λ x, m ≠ x) indexed_models → m ∉ indexed_models)
    by (intros m; apply not_elem_of_strings).
  split; [|split; [|split; [|split]]].
  - destruct (Haltered "report") as (ms & ms' & Hms & Hms' & _ & Hindex).
    { unfold altered_models. do 6 right. left. }
    exists ms'. split; [exact Hms'|]. rewrite Hindex.
    rewrite decide_True; [reflexivity|].
    unfold indexed_models. do 3 right. left.
  - apply Hskipped.
    + unfold altered_models. left.
    + apply Hnot. unfold indexed_models.
      repeat (constructor; [discriminate|]). constructor.
  - destruct (Hskipped "follow") as (ms' & Hms' & _ & Hindex).
    + unfold altered_models. do 2 right. left.
    + apply Hnot. unfold indexed_models.
      repeat (constructor; [discriminate|]). constructor.
    + exists ms'. split; [exact Hms'|exact Hindex].
  - destruct (Hskipped "identity") as (ms' & Hms' & _ & Hindex).
    + unfold altered_models. do 3 right. left.
    + apply Hnot. unfold indexed_models.
      repeat (constructor; [discriminate|]). constructor.
    + exists ms'. split; [exact Hms'|exact Hindex].
  - rewrite Hother.
    + unfold plain_state. apply lookup_gset_to_gmap_None.
      rewrite elem_of_list_to_set. apply not_elem_of_strings.
      unfold altered_models. repeat (constructor; [discriminate|]). constructor.
    + apply not_elem_of_strings. unfold altered_models.
      repeat (constructor; [discriminate|]). constructor.
Defined.

(** ** Posts *)

Lemma to_ap_and_to_create_ap_shape_witness :
  object_uri alice_post = JStr "https://example.com/@alice/posts/1/"
  ∧ ("summary" ∉ dom (to_ap (H := sample_collaborators) alice_post))
  ∧ ∃ envelope,
      @to_create_ap sample_collaborators alice_post = inr envelope
      ∧ envelope !! "id"
        = Some (JStr "https://example.com/@alice/posts/1/#create").
Proof.
  split; [reflexivity|].
  destruct (to_ap_and_to_create_ap_shape (H := sample_collaborators) alice_post)
    as (_ & Hsummary & _ & _ & Hwrap & _).
  destruct (Hwrap "https://example.com/@alice/posts/1/" eq_refl)
    as (envelope & Henvelope & _ & _ & Hid & _).
  split.
  - intros Hin. apply Hsummary in Hin. discriminate Hin.
  - exists envelope. split; [exact Henvelope|exact Hid].
Defined.

Lemma handle_create_ap_actor_mismatch_witness :
  subscript forged_create "actor" = inr (JStr "https://example.com/@bob/")
  ∧ subscript forged_create "object" = inr (JObj mallory_note)
  ∧ subscript (JObj mallory_note) "attributedTo"
    = inr (JStr "https://remote.test/@mallory/")
  ∧ JStr "https://example.com/@bob/" ≠ JStr "https://remote.test/@mallory/"
  ∧ @handle_create_ap sample_collaborators forged_create remote_world
    = (remote_world, inl ValueError).
Proof.
  split; [reflexivity|]. split; [reflexivity|]. split; [reflexivity|].
  split; [discriminate|].
  apply (handle_create_ap_actor_mismatch (H := sample_collaborators)
           forged_create (JStr "https://example.com/@bob/") (JObj mallory_note)
           (JStr "https://remote.test/@mallory/"));
    [reflexivity|reflexivity|reflexivity|discriminate].
Defined.

Lemma handle_delete_ap_unknown_post_witness :
  Forall (λ p, object_uri p ≠ JStr "https://example.com/@alice/posts/9/")
    (posts stored_world)
  ∧ @handle_delete_ap sample_collaborators
      (delete_of "https://example.com/@alice/posts/9/"
         "https://example.com/@alice/") stored_world
    = (stored_world, inr tt).
Proof.
  assert (Hnone : Forall (λ p, object_uri p
                               ≠ JStr "https://example.com/@alice/posts/9/")
                    (posts stored_world)).
  { constructor; [discriminate|constructor]. }
  split; [exact Hnone|].
  apply (handle_delete_ap_unknown_post (H := sample_collaborators) _
           (JObj (<["id" := JStr "https://example.com/@alice/posts/9/"]> ∅))
           (JStr "https://example.com/@alice/posts/9/"));
    [reflexivity|reflexivity|exact Hnone].
Defined.

Lemma handle_delete_ap_checks_actor_witness :
  filter (λ p, object_uri p = JStr "https://example.com/@alice/posts/1/")
    (posts stored_world) = [alice_post]
  ∧ @handle_delete_ap sample_collaborators
      (delete_of "https://example.com/@alice/posts/1/"
         "https://example.com/@bob/") stored_world
    = (stored_world, inl ValueError)
  ∧ @handle_delete_ap sample_collaborators
      (delete_of "https://example.com/@alice/posts/1/"
         "https://example.com/@alice/") stored_world
    = (set_posts [] stored_world, inr tt).
Proof.
  split; [reflexivity|]. split.
  - apply (handle_delete_ap_checks_actor (H := sample_collaborators) _
             (JObj (<["id" := JStr "https://example.com/@alice/posts/1/"]> ∅))
             (JStr "https://example.com/@alice/posts/1/")
             (JStr "https://example.com/@bob/") alice_post stored_world);
      [reflexivity|reflexivity|reflexivity|reflexivity|discriminate].
  - apply (handle_delete_ap_checks_actor (H := sample_collaborators) _
             (JObj (<["id" := JStr "https://example.com/@alice/posts/1/"]> ∅))
             (JStr "https://example.com/@alice/posts/1/")
             (JStr "https://example.com/@alice/") alice_post stored_world);
      reflexivity.
Defined.

Lemma by_object_uri_fetch_witness :
  Forall (λ p, object_uri p ≠ JStr "https://remote.test/notes/1")
    (posts remote_world)
  ∧ @by_object_uri sample_collaborators (JStr "https://remote.test/notes/1")
      true remote_world
    = (set_requests
         [ {| req_method := "GET";
              req_url := JStr "https://remote.test/notes/1";
              req_headers := [("Accept", "application/json")];
              req_follow_redirects := true |} ] remote_world,
       inl DoesNotExist).
Proof.
  split; [constructor|].
  destruct (by_object_uri_fetch (H := sample_collaborators)
              (JStr "https://remote.test/notes/1") remote_world
              (Forall_nil_2 _)) as (_ & _ & _ & Hresponse).
  destruct (Hresponse {| status_code := 404; response_json := inl ValueError |}
              eq_refl) as [Hfail _].
  apply Hfail. simpl. lia.
Defined.

Lemma handle_new_fans_out_witness :
  filter (λ q, id q = id alice_post) (posts stored_world) = [alice_post]
  ∧ state alice_post = new
  ∧ object_uri_clash alice_post (posts stored_world) = false
  ∧ identity_local alice = true
  ∧ filter (λ f, target_id f = identity_id alice) (follows stored_world)
    = [mkFollow 1 bob alice; mkFollow 2 carol alice]
  ∧ identity_local bob = true
  ∧ identity_local carol = true
  ∧ ∃ w' r1 r2 r3,
      handle_new alice_post stored_world = (w', inr fanned_out)
      ∧ fanouts w' = [r1; r2; r3]
      ∧ fanout_identity_id <$> [r1; r2; r3] = [2; 3; 1].
Proof.
  split; [reflexivity|]. split; [reflexivity|]. split; [vm_compute; reflexivity|].
  split; [reflexivity|]. split; [reflexivity|]. split; [reflexivity|].
  split; [reflexivity|].
  destruct (handle_new_fans_out
              stored_world alice_post alice bob carol
              (mkFollow 1 bob alice) (mkFollow 2 carol alice))
    as (w' & r1 & r2 & r3 & Hrun & _ & Hrows & _ & Hids & _);
    [reflexivity|reflexivity|vm_compute; reflexivity|reflexivity|reflexivity
    |reflexivity|reflexivity|reflexivity|reflexivity|reflexivity|].
  exists w', r1, r2, r3.
  split; [exact Hrun|]. split; [exact Hrows|exact Hids].
Defined.


Lemma handle_create_ap_forces_fanned_out_witness :
  ∃ w',
    handle_create_ap (H := sample_collaborators) mallory_create remote_world
    = (w', inr tt)
    ∧ fanouts w' = []
    ∧ ∃ post, post ∈ posts w' ∧ state post = fanned_out ∧ local post = false.
Proof.
  destruct (handle_create_ap (H := sample_collaborators)
              mallory_create remote_world) as [w' [e|[]]] eqn:Hrun.
  { vm_compute in Hrun. discriminate Hrun. }
  exists w'. split; [reflexivity|].
  destruct (handle_create_ap_forces_fanned_out (H := sample_collaborators)
              mallory_create remote_world w' Hrun)
    as (object & object_id & w1 & post & _ & _ & _ & _ & _ & Hcreated
        & Hin & _ & Hfanouts & _).
  split; [exact Hfanouts|].
  exists (set_scheduling fanned_out false None post).
  split; [exact Hin|]. split; [reflexivity|].
  simpl. apply Hcreated. constructor.
Defined.

(** * Further properties of [post.py] *)

Lemma bind_inl {A B} (m : M A) (k : A → M B) (w w' : World) (e : exn) :
  m w = (w', inl e) → bind m k w = (w', inl e).
Proof. intros Hm. unfold bind. by rewrite Hm. Qed.

Lemma bind_ext_on {A B} (m : M A) (k1 k2 : A → M B) (w : World) :
  (∀ w' x, m w = (w', inr x) → k1 x w' = k2 x w') →
  bind m k1 w = bind m k2 w.
Proof.
  intros Hk. unfold bind. destruct (m w) as [w' [e|x]] eqn:Hm; [done|].
  by apply Hk.
Qed.

Lemma rewrite_row_ids (p : Post) (ps : list Post) :
  id <$> rewrite_row p ps = id <$> ps.
Proof.
  unfold rewrite_row. induction ps as [|q l IH]; [done|].
  rewrite !fmap_cons, IH. by destruct (decide (id q = id p)) as [->|].
Qed.

Lemma write_row_keeps_ids (p : Post) (w w' : World) (r : exn + unit) :
  Exists (λ q, id q = id p) (posts w) →
  write_row p w = (w', r) →
  id <$> posts w' = id <$> posts w.
Proof.
  intros Hin. unfold write_row.
  destruct (object_uri_clash p (posts w)); [by intros [= <- _]|].
  rewrite bool_decide_true by done. intros [= <- _]. apply rewrite_row_ids.
Qed.

Lemma write_row_fanouts (p : Post) (w w' : World) (r : exn + unit) :
  write_row p w = (w', r) → fanouts w' = fanouts w.
Proof.
  unfold write_row.
  destruct (object_uri_clash p (posts w)); [by intros [= <- _]|].
  by destruct (bool_decide _); intros [= <- _].
Qed.

Lemma Post_save_keeps_ids (p : Post) (w w' : World) (r : exn + unit) :
  Exists (λ q, id q = id p) (posts w) →
  Post_save p w = (w', r) →
  id <$> posts w' = id <$> posts w.
Proof.
  intros Hin. rewrite Post_save_run.
  destruct (BooleanField_refuses (sensitive p)); [by intros [= <- _]|].
  by apply write_row_keeps_ids.
Qed.

Lemma Post_save_fanouts (p : Post) (w w' : World) (r : exn + unit) :
  Post_save p w = (w', r) → fanouts w' = fanouts w.
Proof.
  rewrite Post_save_run.
  destruct (BooleanField_refuses (sensitive p)); [by intros [= <- _]|].
  apply write_row_fanouts.
Qed.

Lemma elem_of_filter_one {A} (P : A → Prop) `{∀ x, Decision (P x)}
    (l : list A) (x : A) :
  filter P l = [x] → P x ∧ x ∈ l.
Proof.
  intros Hone. apply (list_elem_of_filter P). rewrite Hone. by left.
Qed.

Section MorePostProperties.

Context `{Collaborators}.

(** *** Fan-out in general *)

Lemma fan_out_loop_rows (post : Post) (inbound : list Follow) (w : World) :
  ∃ rows,
    for_each inbound (λ follow,
      if identity_local (source follow) || identity_local (target follow)
      then FanOut_objects_acreate (source_id follow) Types_post post ;;; ret tt
      else ret tt) w
    = (set_fanouts (fanouts w ++ rows) w, inr tt)
    ∧ fanout_identity_id <$> rows
      = source_id <$> filter (λ f, identity_local (source f) = true
                                   ∨ identity_local (target f) = true) inbound
    ∧ Forall (λ r, fanout_type r = Types_post ∧ subject_post_id r = id post
                   ∧ fanout_state r = queued) rows.
Proof.
  revert w. induction inbound as [|f inbound IH]; intros w.
  - exists []. simpl. unfold ret. rewrite app_nil_r. by destruct w.
  - simpl for_each.
    destruct (identity_local (source f) || identity_local (target f)) eqn:Hf.
    + set (r := fan_out_row (next_pk (fanout_id <$> fanouts w)) (source_id f) post).
      destruct (IH (set_fanouts (fanouts w ++ [r]) w))
        as (rows & Hrun & Hids & Hrows).
      exists (r :: rows).
      assert (Hstep :
        (FanOut_objects_acreate (source_id f) Types_post post ;;; ret tt) w
        = (set_fanouts (fanouts w ++ [r]) w, inr tt)) by reflexivity.
      rewrite (bind_inr _ _ _ _ _ Hstep), Hrun.
      split; [simpl; by rewrite <- app_assoc|].
      split; [|by constructor].
      rewrite filter_cons_True by (apply orb_true_iff in Hf; tauto).
      by rewrite !fmap_cons, Hids.
    + destruct (IH w) as (rows & Hrun & Hids & Hrows).
      exists rows.
      rewrite (bind_inr _ _ w w tt) by done.
      split; [done|]. split; [|done].
      rewrite filter_cons_False; [done|].
      apply orb_false_iff in Hf as [Hs Ht]. rewrite Hs, Ht. intros [?|?]; done.
Qed.

(** X1.  [afan_out] on a stored post adds, in the order of the table, one
    FanOut row for the source of every follow that targets the author and
    has a local end, then one row for the author when the author is local;
    every row is of type [post], about this post and queued, and nothing
    else in the store changes. *)
Theorem afan_out_rows (self stored : Post) (w : World) :
  filter (λ q, id q = id self) (posts w) = [stored] →
  ∃ rows,
    afan_out self w = (set_fanouts (fanouts w ++ rows) w, inr tt)
    ∧ fanout_identity_id <$> rows
      = (source_id <$>
           filter (λ f, identity_local (source f) = true
                        ∨ identity_local (target f) = true)
             (filter (λ f, target_id f = identity_id (author stored))
                (follows w)))
        ++ (if identity_local (author stored) then [author_id stored] else [])
    ∧ Forall (λ r, fanout_type r = Types_post ∧ subject_post_id r = id self
                   ∧ fanout_state r = queued) rows.
Proof.
  intros Hrow.
  assert (Hid : id stored = id self)
    by apply (elem_of_filter_one (λ q, id q = id self) _ _ Hrow).
  set (inbound := filter (λ f, target_id f = identity_id (author stored))
                    (follows w)).
  destruct (fan_out_loop_rows stored inbound w) as (rows & Hloop & Hids & Hrows).
  assert (Hfetch : afetch_full self w = (w, inr stored))
    by apply (objects_get_one posts (λ q, id q = id self) w stored Hrow).
  assert (Hinbound : inbound_follows (author stored) w = (w, inr inbound))
    by done.
  unfold afan_out.
  rewrite (bind_inr _ _ _ _ _ Hfetch), (bind_inr _ _ _ _ _ Hinbound),
    (bind_inr _ _ _ _ _ Hloop).
  rewrite Hid in Hrows.
  destruct (identity_local (author stored)).
  - exists (rows ++ [fan_out_row (next_pk (fanout_id <$> (fanouts w ++ rows)))
                       (author_id stored) stored]).
    split; [unfold bind, FanOut_objects_acreate, ret, fan_out_row; simpl;
            by rewrite <- app_assoc|].
    split; [by rewrite fmap_app, Hids|].
    apply Forall_app. split; [done|]. by constructor.
  - exists rows. split; [done|]. split; [by rewrite app_nil_r|done].
Qed.

(** X2.  On a post that is not stored, [handle_new] raises [DoesNotExist]
    and leaves the store as it was: no FanOut row is made. *)
Theorem handle_new_unstored (instance : Post) (w : World) :
  Forall (λ q, id q ≠ id instance) (posts w) →
  handle_new instance w = (w, inl DoesNotExist).
Proof.
  intros Hnone. unfold handle_new, afan_out, afetch_full, bind.
  by rewrite (objects_get_none posts (λ q, id q = id instance) w Hnone).
Qed.

(** *** [by_ap] *)

(** Every way [by_ap] can succeed.  Either one stored post has the id of
    the document, or none has and the post is created. *)
Lemma by_ap_success_inv (data : json) (create update : bool)
    (w w' : World) (post : Post) :
  by_ap data create update w = (w', inr post) →
  ∃ m data_id,
    data = JObj m ∧ m !! "id" = Some data_id ∧ object_uri post = data_id
    ∧ w' = set_posts (posts w') (set_identities (identities w') w)
    ∧ ((∃ p, filter (λ q, object_uri q = data_id) (posts w) = [p]
           ∧ id post = id p ∧ author post = author p ∧ local post = local p
           ∧ state post = state p ∧ state_ready post = state_ready p
           ∧ state_locked_until post = state_locked_until p
           ∧ visibility post = visibility p ∧ to post = to p
           ∧ mentions post = mentions p ∧ in_reply_to post = in_reply_to p
           ∧ identities w' = identities w
           ∧ (if update then posts w' = rewrite_row post (posts w)
              else w' = w ∧ post = p))
        ∨ (filter (λ q, object_uri q = data_id) (posts w) = []
           ∧ create = true
           ∧ id post = next_pk (id <$> posts w)
           ∧ local post = false ∧ state post = new ∧ state_ready post = true
           ∧ state_locked_until post = None
           ∧ visibility post = public ∧ to post = [] ∧ mentions post = []
           ∧ in_reply_to post = JNull
           ∧ posts w' = posts w ++ [post]))
    ∧ (update = true ∨ filter (λ q, object_uri q = data_id) (posts w) = [] →
       ∃ raw,
         m !! "content" = Some (JStr raw)
         ∧ content post = sanitize_post raw
         ∧ summary post = dict_get m "summary" JNull
         ∧ sensitive post = dict_get m "as:sensitive" (JBool false)
         ∧ url post = dict_get m "url" JNull
         ∧ parse_ld_date (dict_get m "published" JNull) = inr (published post)).
Proof.
  destruct data as [| | |m]; try done.
  unfold by_ap. unfold bind at 1. unfold lift at 1. simpl subscript.
  destruct (m !! "id") as [data_id|] eqn:Hid; [|done].
  unfold bind at 1.
  destruct (try_except _ _ _ w) as [w0 [e|[found created]]] eqn:Hfound; [done|].
  intros Hrest. exists m, data_id. split; [done|]. split; [done|].
  assert (Hupdate : ∀ w1,
    (raw_content <- lift (match m !! "content" with
                          | Some x => inr x | None => inl KeyError end) ;;
     content <- lift (sanitize_value raw_content) ;;
     summary <- lift (json_get (JObj m) "summary" JNull) ;;
     sensitive <- lift (json_get (JObj m) "as:sensitive" (JBool false)) ;;
     url <- lift (json_get (JObj m) "url" JNull) ;;
     raw_published <- lift (json_get (JObj m) "published" JNull) ;;
     published <- lift (parse_ld_date raw_published) ;;
     Post_save
       (set_published published
          (set_url url
             (set_sensitive sensitive
                (set_summary summary (set_content content found))))) ;;;
     ret
       (set_published published
          (set_url url
             (set_sensitive sensitive
                (set_summary summary (set_content content found)))))) w0
    = (w1, inr post) →
    write_row post w0 = (w1, inr tt)
    ∧ id post = id found ∧ author post = author found
    ∧ local post = local found ∧ state post = state found
    ∧ state_ready post = state_ready found
    ∧ state_locked_until post = state_locked_until found
    ∧ visibility post = visibility found ∧ to post = to found
    ∧ mentions post = mentions found ∧ in_reply_to post = in_reply_to found
    ∧ object_uri post = object_uri found
    ∧ ∃ raw,
        m !! "content" = Some (JStr raw)
        ∧ content post = sanitize_post raw
        ∧ summary post = dict_get m "summary" JNull
        ∧ sensitive post = dict_get m "as:sensitive" (JBool false)
        ∧ url post = dict_get m "url" JNull
        ∧ parse_ld_date (dict_get m "published" JNull) = inr (published post)).
  { intros w1. unfold bind, lift, json_get, ret.
    destruct (m !! "content") as [[| | raw |]|]; try done.
    simpl sanitize_value.
    destruct (parse_ld_date _) as [|d] eqn:Hd; [done|].
    destruct (Post_save _ w0) as [w2 [|[]]] eqn:Hsave; [done|].
    intros [= <- <-].
    split; [by apply Post_save_written in Hsave as [_ ?]|].
    repeat (split; [done|]).
    exists raw. done. }
  revert Hfound.
  unfold try_except, bind at 1, objects_get.
  destruct (filter (λ q, object_uri q = data_id) (posts w))
    as [|p [|p' l]] eqn:Hfilter.
  - (* created *)
    rewrite decide_True by done.
    destruct create; [|done].
    unfold bind, lift, by_actor_uri, timezone_now, Post_objects_create, ret.
    simpl subscript.
    destruct (m !! "attributedTo"); [|done].
    destruct (Identity_by_actor_uri _ _ _) as [l [e|i]]; [done|].
    destruct (m !! "content") as [raw_content|] eqn:Hcontent; [|done].
    destruct (sanitize_value raw_content) as [|c]; [done|].
    destruct (object_uri_clash _ _); [done|].
    intros [= <- <- <-].
    rewrite orb_true_r in Hrest. simpl subscript in Hrest.
    apply Hupdate in Hrest
      as (Hsave & Hpid & Hau & Hlo & Hst & Hre & Hlk & Hvi & Hto & Hme & Hin & Hur
          & Hfields).
    set (p0 := set_id _ _) in *.
    assert (Hposts : posts w' = posts w ++ [post]).
    { revert Hsave. unfold write_row. simpl posts.
      destruct (object_uri_clash post _); [done|].
      rewrite bool_decide_true
        by (apply Exists_app; right; by apply Exists_cons_hd).
      intros [= <-]. simpl. apply rewrite_row_last; [done|].
      rewrite Hpid. apply (next_pk_fresh id). }
    split; [done|].
    split.
    { revert Hsave. unfold write_row. simpl posts.
      destruct (object_uri_clash post _); [done|].
      destruct (bool_decide _); intros [= <-]; by destruct w. }
    split; [|intros _; exact Hfields].
    right. split; [done|]. split; [done|]. split; [done|].
    by repeat (split; [congruence|]).
  - (* found *)
    unfold ret. intros [= <- <- <-].
    destruct (elem_of_filter_one (λ q, object_uri q = data_id) _ _ Hfilter)
      as [Huri Hin].
    rewrite orb_false_r in Hrest.
    destruct update.
    + simpl subscript in Hrest.
      apply Hupdate in Hrest
        as (Hsave & Hpid & Hau & Hlo & Hst & Hre & Hlk & Hvi & Hto & Hme & Hir
            & Hur & Hfields).
      assert (Hex : Exists (λ q, id q = id post) (posts w)).
      { apply Exists_exists. exists p. by rewrite Hpid. }
      rewrite (write_row_stored post w) in Hsave.
      2:{ destruct (object_uri_clash post (posts w)) eqn:Hc; [|done].
          unfold write_row in Hsave. by rewrite Hc in Hsave. }
      2:{ done. }
      injection Hsave as <-.
      split; [congruence|].
      split; [by destruct w|].
      split; [|intros _; exact Hfields].
      left. exists p. by repeat (split; [done|]).
    + unfold ret in Hrest. injection Hrest as <- <-.
      split; [done|].
      split; [by destruct w|].
      split; [|by intros [?|?]].
      left. exists p. by repeat (split; [done|]).
  - by rewrite decide_False.
Qed.

(** X3.  With [create=False], [by_ap] on a document whose id no stored
    post has raises [KeyError] and leaves the store as it was. *)
Theorem by_ap_unknown_without_create
    (data data_id : json) (update : bool) (w : World) :
  subscript data "id" = inr data_id →
  Forall (λ q, object_uri q ≠ data_id) (posts w) →
  by_ap data false update w = (w, inl KeyError).
Proof.
  intros Hid Hnone. unfold by_ap.
  rewrite (bind_inr _ _ w w data_id) by (unfold lift; by rewrite Hid).
  unfold bind, try_except.
  by rewrite (objects_get_none posts (λ q, object_uri q = data_id) w Hnone).
Qed.

(** X4.  With [update=False], [by_ap] on the document of a stored post
    returns the stored post and writes nothing, whatever else the document
    holds. *)
Theorem by_ap_found_without_update
    (data data_id : json) (create : bool) (p : Post) (w : World) :
  subscript data "id" = inr data_id →
  filter (λ q, object_uri q = data_id) (posts w) = [p] →
  by_ap data create false w = (w, inr p).
Proof.
  intros Hid Hone. unfold by_ap.
  rewrite (bind_inr _ _ w w data_id) by (unfold lift; by rewrite Hid).
  rewrite (bind_inr _ _ w w (p, false)); [done|].
  unfold try_except.
  by rewrite (bind_inr _ _ _ _ _
                (objects_get_one posts (λ q, object_uri q = data_id) w p Hone)).
Qed.

(** X5.  A post that [by_ap] creates is always filled from the document:
    when no stored post has the id, [update=False] gives the same run as
    [update=True]. *)
Theorem by_ap_created_is_updated (data data_id : json) (w : World) :
  subscript data "id" = inr data_id →
  Forall (λ q, object_uri q ≠ data_id) (posts w) →
  by_ap data true false w = by_ap data true true w.
Proof.
  intros Hid Hnone. unfold by_ap.
  rewrite !(bind_inr _ _ w w data_id) by (unfold lift; by rewrite Hid).
  apply bind_ext_on. intros w0 [found created] Hfound.
  assert (created = true) as ->; [|done].
  revert Hfound. unfold try_except.
  rewrite (bind_inl _ _ w w DoesNotExist)
    by apply (objects_get_none posts (λ q, object_uri q = data_id) w Hnone).
  rewrite decide_True by done.
  unfold bind, lift, by_actor_uri, timezone_now, Post_objects_create, ret.
  destruct (subscript data "attributedTo"); [done|].
  destruct (Identity_by_actor_uri _ _ _) as [l [e|i]]; [done|].
  rewrite Hid.
  destruct (subscript data "content") as [e|raw]; [done|].
  destruct (sanitize_value raw); [done|].
  destruct (object_uri_clash _ _); [done|].
  by intros [= _ _ <-].
Qed.

(** X6.  Updating a stored post from a document never changes its primary
    key, author, locality, state, scheduling columns, visibility,
    recipients, mentions, reply target or object URI. *)
Theorem by_ap_update_keeps
    (data data_id : json) (create update : bool) (p post : Post)
    (w w' : World) :
  subscript data "id" = inr data_id →
  filter (λ q, object_uri q = data_id) (posts w) = [p] →
  by_ap data create update w = (w', inr post) →
  id post = id p ∧ author post = author p ∧ local post = local p
  ∧ state post = state p ∧ state_ready post = state_ready p
  ∧ state_locked_until post = state_locked_until p
  ∧ visibility post = visibility p ∧ to post = to p
  ∧ mentions post = mentions p ∧ in_reply_to post = in_reply_to p
  ∧ object_uri post = object_uri p
  ∧ id <$> posts w' = id <$> posts w.
Proof.
  intros Hid Hone Hrun.
  destruct (by_ap_success_inv _ _ _ _ _ _ Hrun)
    as (m & data_id' & -> & Hid' & Huri & _ & Hcases & _).
  simpl in Hid. rewrite Hid' in Hid. injection Hid as ->.
  destruct Hcases as [(p' & Hone' & Hkept)|(Hnone & _)].
  - rewrite Hone in Hone'. injection Hone' as <-.
    destruct Hkept as (? & ? & ? & ? & ? & ? & ? & ? & ? & ? & _ & Hposts).
    repeat (split; [done|]).
    split.
    + rewrite Huri. symmetry.
      apply (elem_of_filter_one (λ q, object_uri q = data_id) _ _ Hone).
    + destruct update.
      * rewrite Hposts. apply rewrite_row_ids.
      * by destruct Hposts as [-> _].
  - by rewrite Hone in Hnone.
Qed.

(** X7.  A post returned by [by_ap] with [update=True] carries the
    document: its content is the sanitised [content], which must be a
    string; [summary] and [url] are the document's or [None]; [sensitive]
    is [as:sensitive] or [False]; [published] is the parsed date; and its
    object URI is the document's id. *)
Theorem by_ap_takes_document_fields
    (data : json) (create : bool) (post : Post) (w w' : World) :
  by_ap data create true w = (w', inr post) →
  ∃ m raw,
    data = JObj m
    ∧ m !! "id" = Some (object_uri post)
    ∧ m !! "content" = Some (JStr raw)
    ∧ content post = sanitize_post raw
    ∧ summary post = default JNull (m !! "summary")
    ∧ sensitive post = default (JBool false) (m !! "as:sensitive")
    ∧ url post = default JNull (m !! "url")
    ∧ parse_ld_date (default JNull (m !! "published")) = inr (published post)
    ∧ post ∈ posts w'.
Proof.
  intros Hrun.
  destruct (by_ap_success_inv _ _ _ _ _ _ Hrun)
    as (m & data_id & -> & Hid & Huri & _ & Hcases & Hfields).
  destruct Hfields as (raw & ? & ? & ? & ? & ? & ?); [by left|].
  exists m, raw. rewrite Huri. repeat (split; [done|]).
  destruct Hcases as [(p & Hone & Hpid & _ & _ & _ & _ & _ & _ & _ & _ & _ & _
                       & Hposts)
                     |(_ & _ & _ & _ & _ & _ & _ & _ & _ & _ & _ & Hposts)].
  - rewrite Hposts. unfold rewrite_row. apply list_elem_of_fmap.
    exists p. rewrite decide_True by done. split; [done|].
    apply (elem_of_filter_one (λ q, object_uri q = data_id) _ _ Hone).
  - rewrite Hposts. apply elem_of_app. right. by left.
Qed.

Lemma by_ap_without_create_rows
    (data : json) (update : bool) (w w' : World) (r : exn + Post) :
  by_ap data false update w = (w', r) →
  id <$> posts w' = id <$> posts w
  ∧ (∀ e, r = inl e → w' = w).
Proof.
  unfold by_ap. unfold bind at 1. unfold lift at 1.
  destruct (subscript data "id") as [e|data_id]; [by intros [= <- <-]|].
  unfold bind at 1, try_except, bind at 1, objects_get.
  destruct (filter (λ q, object_uri q = data_id) (posts w))
    as [|p [|p' l]] eqn:Hfilter.
  - rewrite decide_True by done. by intros [= <- <-].
  - unfold ret at 1.
    destruct (elem_of_filter_one (λ q, object_uri q = data_id) _ _ Hfilter)
      as [_ Hin].
    rewrite orb_false_r. destruct update; [|by intros [= <- <-]].
    unfold bind, lift.
    destruct (subscript data "content") as [e|raw]; [by intros [= <- <-]|].
    destruct (sanitize_value raw); [by intros [= <- <-]|].
    destruct (json_get data "summary" JNull); [by intros [= <- <-]|].
    destruct (json_get data "as:sensitive" (JBool false)); [by intros [= <- <-]|].
    destruct (json_get data "url" JNull); [by intros [= <- <-]|].
    destruct (json_get data "published" JNull); [by intros [= <- <-]|].
    destruct (parse_ld_date _); [by intros [= <- <-]|].
    set (post := set_published _ _).
    assert (Hex : Exists (λ q, id q = id post) (posts w))
      by (apply Exists_exists; by exists p).
    destruct (Post_save post w) as [w1 [e|[]]] eqn:Hsave.
    + intros [= <- <-].
      split; [by apply (Post_save_keeps_ids post w w1 (inl e))|].
      intros _ _. revert Hsave. rewrite Post_save_run.
      destruct (BooleanField_refuses _); [by intros [= <-]|].
      unfold write_row.
      destruct (object_uri_clash post (posts w)); [by intros [= <-]|].
      by destruct (bool_decide _).
    + unfold ret. intros [= <- <-].
      split; [by apply (Post_save_keeps_ids post w w1 (inr tt))|done].
  - rewrite decide_False by done. by intros [= <- <-].
Qed.

(** X8.  With [create=False], [by_ap] neither adds nor removes a row,
    whether it succeeds or raises; when it raises, the store is as it
    was. *)
Theorem by_ap_without_create_keeps_rows
    (data : json) (update : bool) (w w' : World) (r : exn + Post) :
  by_ap data false update w = (w', r) →
  id <$> posts w' = id <$> posts w
  ∧ (∀ e, r = inl e → w' = w).
Proof.
  intros Hrun. split.
  - by destruct (by_ap_without_create_rows _ _ _ _ _ Hrun).
  - intros e ->.
    destruct (by_ap_without_create_rows _ _ _ _ _ Hrun) as [_ Hfail].
    by apply (Hfail e).
Qed.

(** X9.  A document that cannot be finished leaves its post behind: when
    [by_ap] creates the post and the date that follows cannot be parsed, it
    raises, and the new row stays in the table, remote and in the state
    [new]. *)
Theorem by_ap_failed_update_leaves_row
    (m : gmap string json) (data_id attributed_to : json) (raw : string)
    (author_ : Identity) (l : list Identity) (e : exn) (update : bool)
    (w : World) :
  m !! "id" = Some data_id →
  Forall (λ q, object_uri q ≠ data_id) (posts w) →
  m !! "attributedTo" = Some attributed_to →
  Identity_by_actor_uri attributed_to true (identities w) = (l, inr author_) →
  m !! "content" = Some (JStr raw) →
  parse_ld_date (default JNull (m !! "published")) = inl e →
  ∃ row,
    by_ap (JObj m) true update w
      = (set_posts (posts w ++ [row]) (set_identities l w), inl e)
    ∧ object_uri row = data_id ∧ author row = author_
    ∧ local row = false ∧ state row = new ∧ state_ready row = true.
Proof.
  intros Hid Hnone Hattr Hactor Hcontent Hdate.
  set (row := set_id (next_pk (id <$> posts w))
                (set_object_uri data_id
                   (Post_defaults author_ (sanitize_post raw) false (now w)))).
  exists row. split; [|done].
  unfold by_ap.
  rewrite (bind_inr _ _ w w data_id) by (unfold lift; simpl; by rewrite Hid).
  rewrite (bind_inr _ _ w (set_posts (posts w ++ [row]) (set_identities l w))
             (row, true)).
  - rewrite orb_true_r. unfold bind, lift, json_get, dict_get. simpl.
    by rewrite Hcontent, Hdate.
  - unfold try_except.
    rewrite (bind_inl _ _ w w DoesNotExist)
      by apply (objects_get_none posts (λ q, object_uri q = data_id) w Hnone).
    rewrite decide_True by done.
    unfold bind, lift, by_actor_uri, timezone_now, Post_objects_create, ret.
    simpl. rewrite Hattr, Hactor, Hid, Hcontent. simpl.
    fold row.
    assert (Hclash : object_uri_clash row (posts w) = false).
    { unfold object_uri_clash. apply andb_false_iff. right.
      apply bool_decide_false. intros Hex.
      apply Exists_exists in Hex as (q & Hq & _ & Huri).
      rewrite Forall_forall in Hnone. by apply (Hnone q). }
    by rewrite Hclash.
Qed.

(** *** Lookup and fetch *)

(** X10.  A URI that a stored post has is answered from the store: no
    request is sent and nothing is written, with or without [fetch]. *)
Theorem by_object_uri_local (uri : json) (fetch : bool) (p : Post) (w : World) :
  filter (λ q, object_uri q = uri) (posts w) = [p] →
  by_object_uri uri fetch w = (w, inr p).
Proof.
  intros Hone. unfold by_object_uri, try_except.
  by rewrite (objects_get_one posts (λ q, object_uri q = uri) w p Hone).
Qed.

(** X11.  A post that [by_object_uri] fetches is stored, after one request,
    without any FanOut row; when the id of the fetched document is new to
    the store, the post is remote and is left in the state [new], ready for
    the scheduler: nothing forces it into [fanned_out]. *)
Theorem by_object_uri_fetched_post (uri : json) (post : Post) (w w' : World) :
  Forall (λ q, object_uri q ≠ uri) (posts w) →
  by_object_uri uri true w = (w', inr post) →
  post ∈ posts w'
  ∧ fanouts w' = fanouts w
  ∧ requests w'
    = requests w ++ [ {| req_method := "GET"; req_url := uri;
                         req_headers := [("Accept", "application/json")];
                         req_follow_redirects := true |} ]
  ∧ (Forall (λ q, object_uri q ≠ object_uri post) (posts w) →
     local post = false ∧ state post = new ∧ state_ready post = true).
Proof.
  intros Hnone. unfold by_object_uri, try_except.
  rewrite (objects_get_none posts (λ q, object_uri q = uri) w Hnone).
  rewrite decide_True by done.
  unfold bind at 1, httpx_get_.
  destruct (httpx_get _) as [e|response]; [done|].
  destruct (bool_decide _ && bool_decide _); [|done].
  unfold bind at 1, lift at 1.
  destruct (response_json response) as [e|body]; [done|].
  unfold bind at 1, lift at 1.
  destruct (canonicalise body true) as [e|document]; [done|].
  intros Hrun.
  destruct (by_ap_success_inv _ _ _ _ _ _ Hrun)
    as (m & data_id & _ & _ & Huri & Hframe & Hcases & _).
  split.
  { destruct Hcases as [(p & Hone & Hpid & _ & _ & _ & _ & _ & _ & _ & _ & _ & _
                         & Hposts)
                       |(_ & _ & _ & _ & _ & _ & _ & _ & _ & _ & _ & Hposts)].
    - simpl in Hposts. rewrite Hposts. unfold rewrite_row.
      apply list_elem_of_fmap. exists p. rewrite decide_True by done.
      split; [done|].
      apply (elem_of_filter_one (λ q, object_uri q = data_id) _ _ Hone).
    - rewrite Hposts. apply elem_of_app. right. by left. }
  split; [by rewrite Hframe|]. split; [by rewrite Hframe|].
  intros Hnew. rewrite Huri in Hnew.
  destruct Hcases as [(p & Hone & _)|(_ & _ & _ & ? & ? & ? & _)]; [|done].
  destruct (elem_of_filter_one (λ q, object_uri q = data_id) _ _ Hone)
    as [Hp Hin].
  simpl in Hin. rewrite Forall_forall in Hnew. by destruct (Hnew p Hin).
Qed.

(** X12.  [debug_fetch] sends one request and never adds or removes a
    post, whatever the answer: a document with an unknown id is not
    stored. *)
Theorem debug_fetch_never_creates
    (self : Post) (w w' : World) (r : exn + option Post) :
  debug_fetch self w = (w', r) →
  id <$> posts w' = id <$> posts w
  ∧ requests w'
    = requests w ++ [ {| req_method := "GET"; req_url := object_uri self;
                         req_headers := [("Accept", "application/json")];
                         req_follow_redirects := true |} ].
Proof.
  unfold debug_fetch. unfold bind at 1, httpx_get_.
  destruct (httpx_get _) as [e|response]; [by intros [= <- <-]|].
  destruct (bool_decide _ && bool_decide _); [|by intros [= <- <-]].
  unfold bind at 1, lift at 1.
  destruct (response_json response) as [e|body]; [by intros [= <- <-]|].
  unfold bind at 1, lift at 1.
  destruct (canonicalise body true) as [e|document]; [by intros [= <- <-]|].
  unfold bind at 1.
  destruct (by_ap document false true _) as [w1 [e|post]] eqn:Hrun.
  - intros [= <- <-].
    destruct (by_ap_without_create_rows _ _ _ _ _ Hrun) as [Hids Hfail].
    by rewrite (Hfail e eq_refl).
  - unfold ret. intros [= <- <-].
    destruct (by_ap_without_create_rows _ _ _ _ _ Hrun) as [Hids _].
    split; [done|].
    destruct (by_ap_success_inv _ _ _ _ _ _ Hrun) as (_ & _ & _ & _ & _ & -> & _).
    done.
Qed.

(** *** Local creation *)

(** Every run of [create_local]. *)
Lemma create_local_run (author_ : Identity) (content_ : string)
    (summary_ : option string) (w : World) :
  let summary_value := default JNull (JStr <$> summary_) in
  let p0 := set_id (next_pk (id <$> posts w))
              (set_sensitive (JBool (truthy summary_value))
                 (set_summary (if truthy summary_value then summary_value
                               else JNull)
                    (Post_defaults author_ content_ true (now w)))) in
  let p1 := set_object_uri (JStr (urls_object_uri p0)) p0 in
  let p2 := set_url (JStr (urls_view_nice p1)) p1 in
  create_local author_ content_ summary_ w
  = if object_uri_clash p2 (posts w ++ [p0]) then (w, inl IntegrityError)
    else (set_posts (posts w ++ [p2]) w, inr p2).
Proof.
  intros summary_value p0 p1 p2.
  unfold create_local, atomic. cbv zeta.
  rewrite (bind_inr _ _ w w (now w)) by done.
  assert (Hcreate : Post_objects_create
                      (set_sensitive (JBool (truthy summary_value))
                         (set_summary (if truthy summary_value
                                       then summary_value else JNull)
                            (Post_defaults author_ content_ true (now w)))) w
                    = (set_posts (posts w ++ [p0]) w, inr p0)) by done.
  fold summary_value. rewrite (bind_inr _ _ _ _ _ Hcreate). fold p1 p2.
  assert (Hfield : BooleanField_refuses (sensitive p2) = None) by done.
  unfold bind, Post_save. rewrite Hfield. unfold write_row. simpl posts.
  destruct (object_uri_clash p2 (posts w ++ [p0])); [done|].
  rewrite bool_decide_true
    by (apply Exists_app; right; by apply Exists_cons_hd).
  unfold ret. simpl.
  rewrite (rewrite_row_last p0 p2); [done|done|].
  apply (next_pk_fresh id).
Qed.

(** X13.  [create_local] is all or nothing: either it returns the post and
    the store has exactly that one row more, or it raises [IntegrityError]
    and the store is as it was. *)
Theorem create_local_all_or_nothing
    (author_ : Identity) (content_ : string) (summary_ : option string)
    (w w' : World) (r : exn + Post) :
  create_local author_ content_ summary_ w = (w', r) →
  (∃ post, r = inr post ∧ w' = set_posts (posts w ++ [post]) w)
  ∨ (r = inl IntegrityError ∧ w' = w).
Proof.
  rewrite create_local_run. cbv zeta.
  destruct (object_uri_clash _ _); intros [= <- <-].
  - by right.
  - left. by eexists.
Qed.

(** X14.  The post [create_local] returns is local, by the given author,
    in the state [new] and ready, public, published now, with the content
    as given; it is sensitive exactly when a summary that is not empty is
    given, and keeps that summary, or [None]. *)
Theorem create_local_fields
    (author_ : Identity) (content_ : string) (summary_ : option string)
    (w w' : World) (post : Post) :
  create_local author_ content_ summary_ w = (w', inr post) →
  local post = true ∧ author post = author_ ∧ content post = content_
  ∧ state post = new ∧ state_ready post = true
  ∧ state_locked_until post = None
  ∧ visibility post = public ∧ published post = now w
  ∧ summary post = match summary_ with
                   | Some text => if decide (text = "") then JNull else JStr text
                   | None => JNull
                   end
  ∧ sensitive post = match summary_ with
                     | Some text => JBool (negb (bool_decide (text = "")))
                     | None => JBool false
                     end.
Proof.
  rewrite create_local_run. cbv zeta.
  destruct (object_uri_clash _ _); [done|]. intros [= _ <-].
  repeat (split; [done|]). simpl.
  destruct summary_ as [text|]; [|done]. simpl.
  by destruct (decide (text = "")) as [->|Hne];
    [|rewrite bool_decide_false by done].
Qed.

(** X15.  An empty summary is no summary: [create_local] with [""] runs as
    with [None]. *)
Theorem create_local_empty_summary
    (author_ : Identity) (content_ : string) (w : World) :
  create_local author_ content_ (Some "") w
  = create_local author_ content_ None w.
Proof. by rewrite !create_local_run. Qed.

(** *** Inbound Create, again *)

Lemma add_post_loop_posts (l : list Follow) (p : Post) (w w' : World)
    (r : exn + unit) :
  for_each l (λ follow, add_post (source follow) p) w = (w', r) →
  posts w' = posts w ∧ fanouts w' = fanouts w.
Proof.
  revert w. induction l as [|f l IH]; intros w; simpl.
  - unfold ret. by intros [= <- _].
  - unfold bind at 1. unfold add_post at 1.
    destruct (TimelineEvent_add_post _ _ _); [by intros [= <- _]|].
    intros Hrest. apply IH in Hrest. done.
Qed.

Lemma by_ap_found_rows (data data_id : json) (create update : bool)
    (p : Post) (w w' : World) (r : exn + Post) :
  subscript data "id" = inr data_id →
  filter (λ q, object_uri q = data_id) (posts w) = [p] →
  by_ap data create update w = (w', r) →
  id <$> posts w' = id <$> posts w
  ∧ fanouts w' = fanouts w
  ∧ (∀ post, r = inr post → id post = id p).
Proof.
  intros Hid Hone. unfold by_ap.
  rewrite (bind_inr _ _ w w data_id) by (unfold lift; by rewrite Hid).
  rewrite (bind_inr _ _ w w (p, false)).
  2:{ unfold try_except.
      by rewrite (bind_inr _ _ _ _ _
            (objects_get_one posts (λ q, object_uri q = data_id) w p Hone)). }
  rewrite orb_false_r.
  destruct update; [|unfold ret; intros [= <- <-]; split; [done|split; [done|]];
                     by intros ? [= <-]].
  unfold bind, lift.
  destruct (subscript data "content") as [e|raw]; [by intros [= <- <-]|].
  destruct (sanitize_value raw); [by intros [= <- <-]|].
  destruct (json_get data "summary" JNull); [by intros [= <- <-]|].
  destruct (json_get data "as:sensitive" (JBool false)); [by intros [= <- <-]|].
  destruct (json_get data "url" JNull); [by intros [= <- <-]|].
  destruct (json_get data "published" JNull); [by intros [= <- <-]|].
  destruct (parse_ld_date _); [by intros [= <- <-]|].
  set (post := set_published _ _).
  assert (Hex : Exists (λ q, id q = id post) (posts w)).
  { apply Exists_exists. exists p. split; [|done].
    apply (elem_of_filter_one (λ q, object_uri q = data_id) _ _ Hone). }
  destruct (Post_save post w) as [w1 [e|[]]] eqn:Hsave.
  - intros [= <- <-].
    split; [by apply (Post_save_keeps_ids post w w1 (inl e))|].
    split; [|done]. by apply (Post_save_fanouts _ _ _ _ Hsave).
  - unfold ret. intros [= <- <-].
    split; [by apply (Post_save_keeps_ids post w w1 (inr tt))|].
    split; [|by intros ? [= <-]]. by apply (Post_save_fanouts _ _ _ _ Hsave).
Qed.

Lemma handle_create_ap_known_rows (data object object_id : json) (p : Post)
    (w w' : World) (r : exn + unit) :
  subscript data "object" = inr object →
  subscript object "id" = inr object_id →
  filter (λ q, object_uri q = object_id) (posts w) = [p] →
  handle_create_ap data w = (w', r) →
  id <$> posts w' = id <$> posts w ∧ fanouts w' = fanouts w.
Proof.
  intros Hobject Hid Hone. unfold handle_create_ap.
  unfold bind at 1. unfold lift at 1.
  destruct (subscript data "actor") as [?|actor]; [by intros [= <- _]|].
  rewrite (bind_inr _ _ w w object) by (unfold lift; by rewrite Hobject).
  unfold bind at 1. unfold lift at 1.
  destruct (subscript object "attributedTo"); [by intros [= <- _]|].
  destruct (bool_decide _); [by intros [= <- _]|].
  rewrite (bind_inr _ _ w w object) by (unfold lift; by rewrite Hobject).
  unfold bind at 1.
  destruct (by_ap object true true w) as [w1 [e|post]] eqn:Hby_ap.
  { intros [= <- _].
    by destruct (by_ap_found_rows _ _ _ _ _ _ _ _ Hid Hone Hby_ap) as (? & ? & _). }
  destruct (by_ap_found_rows _ _ _ _ _ _ _ _ Hid Hone Hby_ap)
    as (Hids & Hfan & Hpid).
  specialize (Hpid post eq_refl).
  rewrite (bind_inr _ _ w1 w1 _) by done.
  unfold bind at 1.
  destruct (for_each _ _ w1) as [w2 [e|[]]] eqn:Hloop.
  { intros [= <- _]. apply add_post_loop_posts in Hloop as [-> ->]. done. }
  apply add_post_loop_posts in Hloop as [Hposts2 Hfan2].
  unfold transition_perform.
  rewrite (bind_inr _ _ w2 w2 (now w2)) by done.
  intros Hsave.
  assert (Hfan3 : fanouts w' = fanouts w2)
    by apply (write_row_fanouts _ _ _ _ Hsave).
  split; [|congruence].
  rewrite <- Hids, <- Hposts2.
  refine (write_row_keeps_ids _ _ _ _ _ Hsave).
  simpl. rewrite Hposts2.
  assert (Hin : id p ∈ id <$> posts w1).
  { rewrite Hids. apply list_elem_of_fmap. exists p. split; [done|].
    apply (elem_of_filter_one (λ q, object_uri q = object_id) _ _ Hone). }
  apply list_elem_of_fmap in Hin as (q & Hq & Hin).
  apply Exists_exists. exists q. split; [done|]. congruence.
Qed.

(** X16.  A Create for a post that is already stored adds no post and no
    FanOut row, whether the handler accepts it or raises. *)
Theorem handle_create_ap_known_post (data object object_id : json) (p : Post)
    (w w' : World) (r : exn + unit) :
  subscript data "object" = inr object →
  subscript object "id" = inr object_id →
  filter (λ q, object_uri q = object_id) (posts w) = [p] →
  handle_create_ap data w = (w', r) →
  id <$> posts w' = id <$> posts w ∧ fanouts w' = fanouts w.
Proof. apply handle_create_ap_known_rows. Qed.

Lemma write_row_success (p : Post) (w w' : World) :
  Exists (λ q, id q = id p) (posts w) →
  write_row p w = (w', inr tt) →
  w' = set_posts (rewrite_row p (posts w)) w.
Proof.
  intros Hex. unfold write_row.
  destruct (object_uri_clash p (posts w)); [done|].
  rewrite bool_decide_true by done. by intros [= <-].
Qed.

(** X17.  Replaying an accepted Create makes no second post: the first run
    on a document with a new id adds exactly one row and no FanOut row, and
    a second run of the same activity, accepted or not, adds none. *)
Theorem handle_create_ap_replay (data object object_id : json)
    (w w1 w2 : World) (r : exn + unit) :
  subscript data "object" = inr object →
  subscript object "id" = inr object_id →
  Forall (λ q, object_uri q ≠ object_id) (posts w) →
  handle_create_ap data w = (w1, inr tt) →
  handle_create_ap data w1 = (w2, r) →
  length (posts w1) = S (length (posts w))
  ∧ id <$> posts w2 = id <$> posts w1
  ∧ fanouts w2 = fanouts w.
Proof.
  intros Hobject Hid Hnone Hfirst Hsecond.
  assert (Hshape : ∃ forced,
            posts w1 = posts w ++ [forced] ∧ object_uri forced = object_id
            ∧ fanouts w1 = fanouts w).
  { revert Hfirst. unfold handle_create_ap.
    unfold bind at 1. unfold lift at 1.
    destruct (subscript data "actor") as [?|actor]; [done|].
    rewrite (bind_inr _ _ w w object) by (unfold lift; by rewrite Hobject).
    unfold bind at 1. unfold lift at 1.
    destruct (subscript object "attributedTo"); [done|].
    destruct (bool_decide _); [done|].
    rewrite (bind_inr _ _ w w object) by (unfold lift; by rewrite Hobject).
    unfold bind at 1.
    destruct (by_ap object true true w) as [wa [e|post]] eqn:Hby_ap; [done|].
    rewrite (bind_inr _ _ wa wa _) by done.
    unfold bind at 1.
    destruct (for_each _ _ wa) as [wb [e|[]]] eqn:Hloop; [done|].
    apply add_post_loop_posts in Hloop as [Hpostsb Hfanb].
    unfold transition_perform.
    rewrite (bind_inr _ _ wb wb (now wb)) by done.
    intros Hsave.
    destruct (by_ap_success_inv _ _ _ _ _ _ Hby_ap)
      as (m & data_id & -> & Hid' & Huri & Hframe & Hcases & _).
    simpl in Hid. rewrite Hid' in Hid. injection Hid as ->.
    destruct Hcases as [(p & Hone & _)
                       |(_ & _ & Hpid & _ & _ & _ & _ & _ & _ & _ & _ & Hposts)].
    { rewrite (filter_none (λ q, object_uri q = object_id) _ Hnone) in Hone.
      done. }
    apply write_row_success in Hsave.
    2:{ rewrite Hpostsb, Hposts. apply Exists_app. right. by apply Exists_cons_hd. }
    eexists. rewrite Hsave. simpl posts. rewrite Hpostsb, Hposts.
    split.
    - apply rewrite_row_last; [done|]. simpl. rewrite Hpid.
      apply (next_pk_fresh id).
    - split; [done|]. simpl. by rewrite Hfanb, Hframe. }
  destruct Hshape as (forced & Hposts & Huri & Hfan).
  assert (Hone : filter (λ q, object_uri q = object_id) (posts w1) = [forced]).
  { rewrite Hposts.
    by apply (filter_last_only (λ q, object_uri q = object_id)). }
  destruct (handle_create_ap_known_rows _ _ _ _ _ _ _ Hobject Hid Hone Hsecond)
    as [Hids Hfan2].
  split; [rewrite Hposts, length_app; simpl; lia|].
  split; [done|congruence].
Qed.

(** X18.  From an inbound document to the outbound one: the document
    [to_ap] gives for a remote post that [by_ap] has just filled has the
    inbound id; the inbound [url], or [None]; the inbound [as:sensitive], or
    [False]; the inbound [summary] when that is not empty, and no summary
    otherwise; and as content the inbound content sanitised twice. *)
Theorem by_ap_then_to_ap
    (data : json) (create : bool) (post : Post) (w w' : World) :
  by_ap data create true w = (w', inr post) →
  local post = false →
  ∃ m raw,
    data = JObj m
    ∧ m !! "content" = Some (JStr raw)
    ∧ to_ap post !! "id" = m !! "id"
    ∧ to_ap post !! "content" = Some (JStr (sanitize_post (sanitize_post raw)))
    ∧ to_ap post !! "url" = Some (default JNull (m !! "url"))
    ∧ to_ap post !! "as:sensitive"
      = Some (default (JBool false) (m !! "as:sensitive"))
    ∧ to_ap post !! "summary"
      = if truthy (default JNull (m !! "summary")) then m !! "summary"
        else None.
Proof.
  intros Hrun Hremote.
  destruct (by_ap_success_inv _ _ _ _ _ _ Hrun)
    as (m & data_id & -> & Hid & Huri & _ & _ & Hfields).
  destruct Hfields as (raw & Hraw & Hcontent & Hsummary & Hsensitive & Hurl & _);
    [by left|].
  exists m, raw. split; [done|]. split; [done|].
  unfold dict_get in *. unfold to_ap, safe_content.
  rewrite Hremote, Hcontent, Hsummary, Hsensitive, Hurl, Huri, Hid.
  destruct (m !! "summary") as [v|] eqn:Hv; simpl.
  - destruct (truthy v); by simplify_map_eq.
  - by simplify_map_eq.
Qed.

(** *** Delete, again *)

(** X19.  A Delete by the author can be delivered twice: the first run
    removes the post, after which its URI is unknown to [by_object_uri], and
    the second run returns normally and changes nothing. *)
Theorem handle_delete_ap_twice
    (data object object_id : json) (post : Post) (w : World) :
  subscript data "object" = inr object →
  subscript object "id" = inr object_id →
  filter (λ p, object_uri p = object_id) (posts w) = [post] →
  subscript data "actor" = inr (JStr (actor_uri (author post))) →
  ∃ w',
    handle_delete_ap data w = (w', inr tt)
    ∧ by_object_uri object_id false w' = (w', inl DoesNotExist)
    ∧ handle_delete_ap data w' = (w', inr tt).
Proof.
  intros Hobject Hid Hone Hactor.
  set (w' := set_posts (filter (λ q, id q ≠ id post) (posts w)) w).
  assert (Hgone : Forall (λ q, object_uri q ≠ object_id) (posts w')).
  { apply Forall_forall. intros q Hq Huri.
    apply list_elem_of_filter in Hq as [Hne Hq].
    assert (Hin : q ∈ filter (λ p, object_uri p = object_id) (posts w))
      by (by apply list_elem_of_filter).
    rewrite Hone in Hin. apply list_elem_of_singleton in Hin. by subst. }
  exists w'. split; [|split].
  - unfold handle_delete_ap, by_object_uri, bind, try_except, lift.
    rewrite Hobject, Hid. cbn beta iota.
    rewrite (objects_get_one posts (λ q, object_uri q = object_id) w post Hone).
    simpl. rewrite Hactor. by rewrite bool_decide_true.
  - unfold by_object_uri, try_except.
    by rewrite (objects_get_none posts (λ q, object_uri q = object_id) w' Hgone).
  - unfold handle_delete_ap, by_object_uri, bind, try_except, lift.
    rewrite Hobject, Hid. cbn beta iota.
    by rewrite (objects_get_none posts (λ q, object_uri q = object_id) w' Hgone).
Qed.

End MorePostProperties.

(** * Further properties of the migration *)

Lemma alter_all_twice (m : string) (ms : ModelState) :
  alter_all operations m (alter_all operations m ms)
  = alter_all operations m ms.
Proof.
  destruct (decide (m ∈ altered_models)) as [Hm|Hm].
  - rewrite !alter_all_altered by done. cbn [fields index_together].
    rewrite insert_insert_eq. by destruct (decide (m ∈ indexed_models)).
  - by rewrite !alter_all_other.
Qed.

(** X20.  Migration 0013 can be applied again: on the state it produces it
    runs and changes nothing; and it neither adds nor removes a model. *)
Theorem migration_0013_idempotent (s s' : gmap string ModelState) :
  migrate operations s = Some s' →
  migrate operations s' = Some s' ∧ dom s' = dom s.
Proof.
  intros Hrun.
  assert (Hlookup := migrate_lookup _ _ _ Hrun).
  assert (Hdefined := migrate_defined _ _ _ Hrun).
  split.
  - destruct (migrate_runs operations s') as [s'' Hagain].
    { intros op Hop. rewrite Hlookup. apply fmap_is_Some. by apply Hdefined. }
    rewrite Hagain. f_equal. apply map_eq. intros m.
    rewrite (migrate_lookup _ _ _ Hagain m), Hlookup.
    destruct (s !! m) as [ms|]; [|done].
    cbn [fmap option_fmap option_map]. by rewrite alter_all_twice.
  - apply set_eq. intros m. rewrite !elem_of_dom, Hlookup.
    apply fmap_is_Some.
Qed.

Lemma migration_0013_idempotent_witness :
  ∃ s',
    migrate operations plain_state = Some s'
    ∧ migrate operations s' = Some s'
    ∧ dom s' = dom plain_state.
Proof.
  destruct plain_state_migrates as [s' Hrun].
  exists s'. split; [exact Hrun|].
  exact (migration_0013_idempotent plain_state s' Hrun).
Defined.

(** * Properties of the post types *)

Section PostTypesProperties.

Import PostTypes.

(** X21.  [QuestionOption] takes its votes from [votes] when that is given,
    else from [replies.totalItems], else they are [0]; no other argument is
    touched.  This holds when [replies], if given, is a dict. *)
Theorem QuestionOption_init_votes (data : gmap string pyval) :
  (∀ r, data !! "replies" = Some r → ∃ m, r = PDict m) →
  ∃ data',
    QuestionOption_init data = inr data'
    ∧ data' !! "votes"
      = Some (match data !! "votes", data !! "replies" with
              | Some v, _ => v
              | None, Some (PDict m) => default (PInt 0) (m !! "totalItems")
              | None, _ => PInt 0
              end)
    ∧ ∀ k, k ≠ "votes" → data' !! k = data !! k.
Proof.
  intros Hreplies. unfold QuestionOption_init.
  destruct (data !! "replies") as [r|] eqn:Hr.
  - destruct (Hreplies r eq_refl) as [m ->]. simpl.
    eexists. split; [done|].
    split; [|by intros k Hk; rewrite lookup_insert_ne].
    rewrite lookup_insert_eq. by destruct (data !! "votes").
  - simpl. eexists. split; [done|].
    split; [|by intros k Hk; rewrite lookup_insert_ne].
    rewrite lookup_insert_eq, lookup_empty. by destruct (data !! "votes").
Qed.

(** X22.  The default is computed before [votes] is looked at: with a
    [replies] that is no dict the constructor raises [AttributeError], also
    when [votes] is given. *)
Theorem QuestionOption_init_bad_replies
    (data : gmap string pyval) (r : pyval) :
  data !! "replies" = Some r →
  (∀ m, r ≠ PDict m) →
  QuestionOption_init data = inl (OtherError "AttributeError").
Proof.
  intros Hr Hbad. unfold QuestionOption_init. rewrite Hr. simpl.
  destruct r; try done. by destruct (Hbad m).
Qed.

(** X23.  After [QuestionData.__init__] the arguments always hold
    [voter_count], [mode] and [options]; a value given for one of them is
    kept; and [voter_count] falls back to [votersCount], then to
    [toot:votersCount], then to [0]. *)
Theorem QuestionData_init_complete (data : gmap string pyval) :
  is_Some (QuestionData_init data !! "mode")
  ∧ is_Some (QuestionData_init data !! "options")
  ∧ QuestionData_init data !! "voter_count"
    = Some (match data !! "voter_count", data !! "votersCount",
                  data !! "toot:votersCount" with
            | Some v, _, _ => v
            | None, Some v, _ => v
            | None, None, Some v => v
            | None, None, None => PInt 0
            end)
  ∧ (∀ v, data !! "mode" = Some v → QuestionData_init data !! "mode" = Some v)
  ∧ (∀ v, data !! "options" = Some v →
       QuestionData_init data !! "options" = Some v).
Proof.
  unfold QuestionData_init. cbv zeta.
  rewrite !(lookup_insert_ne _ "voter_count") by done.
  destruct (data !! "mode") as [md|] eqn:Hmode;
    rewrite ?(lookup_insert_ne _ "mode" "options") by done;
    rewrite !(lookup_insert_ne _ "voter_count") by done;
    destruct (data !! "options") as [op|] eqn:Hopt;
    try destruct (negb _);
    repeat split;
    rewrite ?lookup_insert_eq;
    rewrite ?(lookup_insert_ne _ "options") by done;
    rewrite ?lookup_delete_ne by done;
    rewrite ?lookup_insert_eq;
    rewrite ?(lookup_insert_ne _ "mode") by done;
    rewrite ?(lookup_insert_ne _ "voter_count") by done;
    rewrite ?lookup_insert_eq;
    try done;
    try (by destruct (data !! "voter_count"), (data !! "votersCount"),
               (data !! "toot:votersCount"));
    try (intros v [= <-]; congruence).
Qed.

(** X24.  When no [options] are given, they are taken from [anyOf] if
    that is given and not empty, and from [oneOf] (or [None]) otherwise; the
    key [anyOf] is always removed, the key [oneOf] only when [anyOf] was not
    used; and a [mode] that is not given is [anyOf] exactly when the key
    [anyOf] is present. *)
Theorem QuestionData_init_options (data : gmap string pyval) :
  data !! "options" = None →
  QuestionData_init data !! "anyOf" = None
  ∧ QuestionData_init data !! "options"
    = Some (if truthy (default PNone (data !! "anyOf"))
            then default PNone (data !! "anyOf")
            else default PNone (data !! "oneOf"))
  ∧ QuestionData_init data !! "oneOf"
    = (if truthy (default PNone (data !! "anyOf")) then data !! "oneOf"
       else None)
  ∧ (data !! "mode" = None →
     QuestionData_init data !! "mode"
     = Some (PStr (match data !! "anyOf" with
                   | Some _ => "anyOf"
                   | None => "oneOf"
                   end))).
Proof.
  intros Hopt. unfold QuestionData_init. cbv zeta.
  rewrite !(lookup_insert_ne _ "voter_count") by done.
  destruct (data !! "mode") as [md|] eqn:Hmode;
    rewrite ?(lookup_insert_ne _ "mode") by done;
    rewrite ?(lookup_insert_ne _ "voter_count") by done;
    rewrite Hopt;
    destruct (truthy (default PNone (data !! "anyOf"))); simpl negb; cbn iota;
    repeat split;
    rewrite ?(lookup_insert_ne _ "options") by done;
    rewrite ?lookup_insert_eq;
    rewrite ?lookup_delete_eq;
    rewrite ?lookup_delete_ne by done;
    rewrite ?lookup_delete_eq;
    rewrite ?(lookup_insert_ne _ "mode") by done;
    rewrite ?(lookup_insert_ne _ "voter_count") by done;
    rewrite ?lookup_insert_eq;
    try done;
    try (intros _; by destruct (data !! "anyOf")).
Qed.

(** X25.  A poll that comes with an empty [anyOf] and its options under
    [oneOf] gets the mode [anyOf] with the options of [oneOf]. *)
Theorem QuestionData_init_empty_anyOf
    (data : gmap string pyval) (any_of : pyval) :
  data !! "mode" = None →
  data !! "options" = None →
  data !! "anyOf" = Some any_of →
  truthy any_of = false →
  QuestionData_init data !! "mode" = Some (PStr "anyOf")
  ∧ QuestionData_init data !! "options"
    = Some (default PNone (data !! "oneOf")).
Proof.
  intros Hmode Hopt Hany Hempty. unfold QuestionData_init. cbv zeta.
  rewrite !(lookup_insert_ne _ "voter_count") by done.
  rewrite Hmode.
  rewrite !(lookup_insert_ne _ "mode") by done.
  rewrite !(lookup_insert_ne _ "voter_count") by done.
  rewrite Hopt, Hany. simpl default. rewrite Hempty. simpl negb. cbn iota.
  rewrite (lookup_insert_ne _ "options" "mode") by done.
  rewrite !lookup_delete_ne by done.
  rewrite !lookup_insert_eq.
  rewrite (lookup_insert_ne _ "mode" "oneOf") by done.
  by rewrite (lookup_insert_ne _ "voter_count" "oneOf") by done.
Qed.

(** What the loop over the options builds. *)
Lemma poll_loop_spec (options : list QuestionOption) (index : nat)
    (acc : PollLoop) :
  loop_options (poll_loop index options acc)
  = loop_options acc ++ (option_entry <$> options)
  ∧ loop_votes_count (poll_loop index options acc)
    = (loop_votes_count acc + foldr Z.add 0 (votes <$> options))%Z
  ∧ ∀ n i,
      option_map (poll_loop index options acc) !! n = Some i →
      (option_map acc !! n = Some i ∧ Forall (λ o, name o ≠ n) options)
      ∨ ∃ j o,
          i = index + j ∧ options !! j = Some o ∧ name o = n
          ∧ ∀ j' o', j < j' → options !! j' = Some o' → name o' ≠ n.
Proof.
  revert index acc. induction options as [|o options IH]; intros index acc.
  - simpl. rewrite app_nil_r. split; [done|]. split; [lia|].
    intros n i Hi. left. by split.
  - simpl poll_loop.
    destruct (IH (S index)
                {| loop_options := loop_options acc ++ [option_entry o];
                   loop_votes_count := loop_votes_count acc + votes o;
                   option_map := <[name o := index]> (option_map acc) |})
      as (Hopts & Hcount & Hmap).
    split; [rewrite Hopts; simpl; by rewrite <- app_assoc|].
    split; [rewrite Hcount, fmap_cons; cbn [foldr loop_votes_count]; lia|].
    intros n i Hi. destruct (Hmap n i Hi) as [[Hacc Hnone]|(j & o' & -> & Hj & Hn & Hlast)].
    + simpl in Hacc. destruct (decide (name o = n)) as [<-|Hne].
      * rewrite lookup_insert_eq in Hacc. injection Hacc as <-.
        right. exists 0, o. split; [lia|]. split; [done|]. split; [done|].
        intros j' o' Hlt Hj'. destruct j' as [|j']; [lia|]. simpl in Hj'.
        rewrite Forall_forall in Hnone. apply Hnone.
        by apply list_elem_of_lookup_2 in Hj'.
      * rewrite lookup_insert_ne in Hacc by done. left. split; [done|].
        by constructor.
    + right. exists (S j), o'. split; [lia|]. split; [done|]. split; [done|].
      intros j' o'' Hlt Hj'. destruct j' as [|j']; [lia|]. simpl in Hj'.
      apply (Hlast j' o''); [lia|done].
Qed.

Context `{Collaborators}.

(** Every run of [to_mastodon_json]. *)
Lemma to_mastodon_json_run (USE_TZ : bool) (self : QuestionData)
    (table : list PostInteraction) (post : Post) (identity : option Identity)
    (w w' : World) (r : exn + gmap string pyval) :
  to_mastodon_json USE_TZ self table post identity w = (w', r) →
  w' = w
  ∧ match r with
    | inl e => e = TypeError ∧ ∃ t, end_time self = Some t ∧ aware t ≠ USE_TZ
    | inr value =>
        (∀ t, end_time self = Some t → aware t = USE_TZ)
        ∧ ∃ loop,
            loop = poll_loop 0 (default [] (options self)) (mkPollLoop [] 0 ∅)
            ∧ value !! "id" = Some (PInt (Z.of_nat (id post)))
            ∧ value !! "multiple"
              = Some (PBool (bool_decide (mode self = Some anyOf)))
            ∧ value !! "voters_count" = Some (PInt (voter_count self))
            ∧ value !! "emojis" = Some (PList [])
            ∧ value !! "options" = Some (PList (loop_options loop))
            ∧ value !! "votes_count" = Some (PInt (loop_votes_count loop))
            ∧ value !! "expires_at"
              = Some (match end_time self with
                      | Some t => PStr (format_ld_date (instant t))
                      | None => PNone
                      end)
            ∧ value !! "expired"
              = Some (PBool (match end_time self with
                             | Some t => bool_decide (instant t ≤ now w)%Z
                             | None => false
                             end))
            ∧ value !! "voted"
              = Some (PBool (match identity with
                             | Some i =>
                                 bool_decide (identity_id (author post)
                                              = identity_id i)
                                 || negb (bool_decide
                                            (length (votes_of table post i) = 0))
                             | None => false
                             end))
            ∧ value !! "own_votes"
              = Some (PList ((λ i, PInt (Z.of_nat i)) <$>
                        match identity with
                        | Some i =>
                            own_votes (option_map loop) (votes_of table post i)
                        | None => []
                        end))
    end.
Proof.
  unfold to_mastodon_json.
  destruct (end_time self) as [[t_aware t]|].
  - unfold bind, timezone_now, lift, datetime_ge, ret. cbn [aware instant].
    destruct (decide (USE_TZ = t_aware)) as [->|Hne].
    + rewrite bool_decide_true by done.
      destruct identity as [i|]; intros [= <- <-]; (split; [done|]);
        (split; [by intros ? [= <-]|]);
        eexists; (split; [reflexivity|]); repeat split; by simplify_map_eq.
    + rewrite bool_decide_false by done. intros [= <- <-].
      split; [done|]. split; [done|]. eexists. split; [done|]. simpl. congruence.
  - unfold bind, ret.
    destruct identity as [i|]; intros [= <- <-]; (split; [done|]);
      (split; [done|]);
      eexists; (split; [reflexivity|]); repeat split; by simplify_map_eq.
Qed.

(** X26.  [to_mastodon_json] writes nothing.  It raises [TypeError] when
    the poll has an end time that is aware where [timezone.now()] is naive,
    or naive where it is aware, and only then; otherwise it returns.  In
    what it returns, [options] are the poll's options in order, each with
    its title and its votes; [votes_count] is the sum of the votes of all
    options; [voters_count] is the poll's own count, which need not be that
    sum; and [multiple] says whether the mode is [anyOf]. *)
Theorem to_mastodon_json_totals (USE_TZ : bool) (self : QuestionData)
    (table : list PostInteraction) (post : Post) (identity : option Identity)
    (w w' : World) (r : exn + gmap string pyval) :
  to_mastodon_json USE_TZ self table post identity w = (w', r) →
  w' = w
  ∧ match r with
    | inl e => e = TypeError ∧ ∃ t, end_time self = Some t ∧ aware t ≠ USE_TZ
    | inr value =>
        (∀ t, end_time self = Some t → aware t = USE_TZ)
        ∧ value !! "options"
          = Some (PList (option_entry <$> default [] (options self)))
        ∧ value !! "votes_count"
          = Some (PInt (foldr Z.add 0%Z (votes <$> default [] (options self))))
        ∧ value !! "voters_count" = Some (PInt (voter_count self))
        ∧ value !! "multiple"
          = Some (PBool (bool_decide (mode self = Some anyOf)))
        ∧ value !! "id" = Some (PInt (Z.of_nat (id post)))
    end.
Proof.
  intros Hrun.
  destruct (to_mastodon_json_run _ _ _ _ _ _ _ _ Hrun) as [-> Hr].
  split; [done|]. destruct r as [e|value]; [done|].
  destruct Hr as (Htime & loop & Hloop & Hid & Hmultiple & Hvoters & _
                  & Hoptions & Hvotes & _).
  destruct (poll_loop_spec (default [] (options self)) 0 (mkPollLoop [] 0 ∅))
    as (Hentries & Hcount & _).
  split; [done|].
  rewrite Hoptions, Hvotes, Hloop, Hentries, Hcount. simpl.
  repeat split; try done.
Qed.

(** X27.  When [to_mastodon_json] returns, every index in [own_votes]
    points into the options: it is the position of an option whose name is
    the value of a vote that the identity cast on this post, and of the last
    option of that name when several options share it.  Votes for a name
    that is no option are left out. *)
Theorem to_mastodon_json_own_votes (USE_TZ : bool) (self : QuestionData)
    (table : list PostInteraction) (post : Post) (identity : Identity)
    (w w' : World) (document : gmap string pyval) :
  to_mastodon_json USE_TZ self table post (Some identity) w
  = (w', inr document) →
  ∃ indices,
    document !! "own_votes"
    = Some (PList ((λ i, PInt (Z.of_nat i)) <$> indices))
    ∧ Forall (λ k,
        ∃ o v,
          default [] (options self) !! k = Some o
          ∧ v ∈ table
          ∧ interaction_post v = id post
          ∧ identity_id (interaction_identity v) = identity_id identity
          ∧ interaction_type v = vote
          ∧ value v = Some (name o)
          ∧ ∀ k' o', k < k' → default [] (options self) !! k' = Some o' →
                     name o' ≠ name o) indices.
Proof.
  intros Hrun.
  destruct (to_mastodon_json_run _ _ _ _ _ _ _ _ Hrun)
    as (_ & _ & loop & Hloop & _ & _ & _ & _ & _ & _ & _ & _ & _ & Hown).
  destruct (poll_loop_spec (default [] (options self)) 0 (mkPollLoop [] 0 ∅))
    as (_ & _ & Hmap).
  eexists. split; [done|].
  apply Forall_forall. intros k Hk.
  apply list_elem_of_omap in Hk as (v & Hv & Hk).
  apply list_elem_of_filter in Hv as ((Hpost & Hidentity & Htype) & Hv).
  destruct (value v) as [n|] eqn:Hn; [|done].
  rewrite Hloop in Hk.
  destruct (Hmap n k Hk) as [[Hempty _]|(j & o & -> & Hj & Hname & Hlast)].
  { simpl in Hempty. by rewrite lookup_empty in Hempty. }
  exists o, v. rewrite Hname. repeat (split; [done|]).
  intros k' o' Hlt Hk'. by apply (Hlast k' o').
Qed.

(** X28.  When [to_mastodon_json] returns: without an identity nobody has
    voted and [own_votes] is empty; for an identity, [voted] holds exactly
    when the identity is the author of the post or has cast a vote on it, so
    the author of a poll counts as having voted. *)
Theorem to_mastodon_json_voted (USE_TZ : bool) (self : QuestionData)
    (table : list PostInteraction) (post : Post) (identity : option Identity)
    (w w' : World) (document : gmap string pyval) :
  to_mastodon_json USE_TZ self table post identity w = (w', inr document) →
  match identity with
  | None =>
      document !! "voted" = Some (PBool false)
      ∧ document !! "own_votes" = Some (PList [])
  | Some identity =>
      ∃ voted,
        document !! "voted" = Some (PBool voted)
        ∧ (voted = true ↔
           identity_id (author post) = identity_id identity
           ∨ ∃ v, v ∈ table ∧ interaction_post v = id post
                  ∧ identity_id (interaction_identity v) = identity_id identity
                  ∧ interaction_type v = vote)
  end.
Proof.
  intros Hrun.
  destruct (to_mastodon_json_run _ _ _ _ _ _ _ _ Hrun)
    as (_ & _ & loop & _ & _ & _ & _ & _ & _ & _ & _ & _ & Hvoted & Hown).
  destruct identity as [identity|]; [|done].
  eexists. split; [done|].
  rewrite orb_true_iff, bool_decide_eq_true, negb_true_iff,
    bool_decide_eq_false.
  split; (intros [Hauthor|Hvotes]; [by left|right]).
  - destruct (votes_of table post identity) as [|v l] eqn:Hl; [done|].
    exists v.
    assert (Hv : v ∈ votes_of table post identity) by (rewrite Hl; by left).
    apply list_elem_of_filter in Hv as ((? & ? & ?) & ?). done.
  - destruct Hvotes as (v & Hv & Hpost & Hidentity & Htype).
    assert (Hin : v ∈ votes_of table post identity)
      by (by apply list_elem_of_filter).
    intros Hlen. destruct (votes_of table post identity); [|done].
    by apply elem_of_nil in Hin.
Qed.

End PostTypesProperties.

(** * The further theorems at work on sample data *)

Lemma afan_out_rows_witness :
  filter (λ q, id q = id alice_post) (posts stored_world) = [alice_post]
  ∧ ∃ rows,
      afan_out alice_post stored_world
      = (set_fanouts (fanouts stored_world ++ rows) stored_world, inr tt)
      ∧ fanout_identity_id <$> rows = [2; 3; 1].
Proof.
  split; [reflexivity|].
  destruct (afan_out_rows alice_post alice_post stored_world eq_refl)
    as (rows & Hrun & Hids & _).
  exists rows. split; [exact Hrun|exact Hids].
Defined.

Lemma handle_new_unstored_witness :
  Forall (λ q, id q ≠ id alice_post) (posts alice_world)
  ∧ handle_new alice_post alice_world = (alice_world, inl DoesNotExist).
Proof.
  split; [constructor|].
  apply (handle_new_unstored alice_post alice_world). constructor.
Defined.

Lemma by_ap_unknown_without_create_witness :
  subscript (JObj mallory_note) "id" = inr (JStr "https://remote.test/notes/1")
  ∧ Forall (λ q, object_uri q ≠ JStr "https://remote.test/notes/1")
      (posts stored_world)
  ∧ by_ap (H := sample_collaborators) (JObj mallory_note) false true
      stored_world
    = (stored_world, inl KeyError).
Proof.
  assert (Hnone : Forall (λ q, object_uri q ≠ JStr "https://remote.test/notes/1")
                    (posts stored_world)).
  { constructor; [discriminate|constructor]. }
  split; [reflexivity|]. split; [exact Hnone|].
  apply (by_ap_unknown_without_create (H := sample_collaborators)
           (JObj mallory_note) (JStr "https://remote.test/notes/1"));
    [reflexivity|exact Hnone].
Defined.

Lemma by_ap_found_without_update_witness :
  subscript (JObj alice_note) "id"
  = inr (JStr "https://example.com/@alice/posts/1/")
  ∧ filter (λ q, object_uri q = JStr "https://example.com/@alice/posts/1/")
      (posts stored_world) = [alice_post]
  ∧ by_ap (H := sample_collaborators) (JObj alice_note) true false stored_world
    = (stored_world, inr alice_post).
Proof.
  split; [reflexivity|]. split; [reflexivity|].
  apply (by_ap_found_without_update (H := sample_collaborators)
           (JObj alice_note) (JStr "https://example.com/@alice/posts/1/"));
    reflexivity.
Defined.

Lemma by_ap_created_is_updated_witness :
  Forall (λ q, object_uri q ≠ JStr "https://remote.test/notes/1")
    (posts remote_world)
  ∧ by_ap (H := sample_collaborators) (JObj mallory_note) true false
      remote_world
    = by_ap (H := sample_collaborators) (JObj mallory_note) true true
        remote_world.
Proof.
  split; [constructor|].
  apply (by_ap_created_is_updated (H := sample_collaborators)
           (JObj mallory_note) (JStr "https://remote.test/notes/1"));
    [reflexivity|constructor].
Defined.

Lemma by_ap_update_keeps_witness :
  filter (λ q, object_uri q = JStr "https://example.com/@alice/posts/1/")
    (posts stored_world) = [alice_post]
  ∧ ∃ w' post,
      by_ap (H := sample_collaborators) (JObj alice_note) false true
        stored_world = (w', inr post)
      ∧ id post = 1 ∧ local post = true ∧ state post = new
      ∧ id <$> posts w' = [1].
Proof.
  split; [reflexivity|].
  destruct (by_ap (H := sample_collaborators) (JObj alice_note) false true
              stored_world) as [w' [e|post]] eqn:Hrun.
  { vm_compute in Hrun. discriminate Hrun. }
  exists w', post. split; [reflexivity|].
  destruct (by_ap_update_keeps (H := sample_collaborators)
              (JObj alice_note) (JStr "https://example.com/@alice/posts/1/")
              false true alice_post post stored_world w' eq_refl eq_refl Hrun)
    as (Hid & _ & Hlocal & Hstate & _ & _ & _ & _ & _ & _ & _ & Hids).
  split; [exact Hid|]. split; [exact Hlocal|]. split; [exact Hstate|exact Hids].
Defined.

Lemma by_ap_takes_document_fields_witness :
  ∃ w' post,
    by_ap (H := sample_collaborators) (JObj alice_note) false true stored_world
    = (w', inr post)
    ∧ content post = "<p>edited</p>"
    ∧ summary post = JStr "spoiler"
    ∧ sensitive post = JBool false
    ∧ url post = JNull.
Proof.
  destruct (by_ap (H := sample_collaborators) (JObj alice_note) false true
              stored_world) as [w' [e|post]] eqn:Hrun.
  { vm_compute in Hrun. discriminate Hrun. }
  exists w', post. split; [reflexivity|].
  destruct (by_ap_takes_document_fields (H := sample_collaborators)
              (JObj alice_note) false post stored_world w' Hrun)
    as (m & raw & Hm & _ & Hraw & Hcontent & Hsummary & Hsensitive & Hurl & _).
  injection Hm as <-.
  assert (Hraw' : alice_note !! "content" = Some (JStr "<p>edited</p>"))
    by reflexivity.
  rewrite Hraw' in Hraw. injection Hraw as <-.
  split; [exact Hcontent|]. split; [exact Hsummary|].
  split; [exact Hsensitive|exact Hurl].
Defined.

Lemma by_ap_without_create_keeps_rows_witness :
  ∃ w' r,
    by_ap (H := sample_collaborators) (JObj mallory_note) false true
      stored_world = (w', r)
    ∧ id <$> posts w' = [1].
Proof.
  destruct (by_ap (H := sample_collaborators) (JObj mallory_note) false true
              stored_world) as [w' r] eqn:Hrun.
  exists w', r. split; [reflexivity|].
  destruct (by_ap_without_create_keeps_rows (H := sample_collaborators)
              (JObj mallory_note) true stored_world w' r Hrun) as [Hids _].
  exact Hids.
Defined.

Lemma by_ap_failed_update_leaves_row_witness :
  undated_note !! "id" = Some (JStr "https://remote.test/notes/1")
  ∧ Forall (λ q, object_uri q ≠ JStr "https://remote.test/notes/1")
      (posts remote_world)
  ∧ undated_note !! "attributedTo" = Some (JStr "https://remote.test/@mallory/")
  ∧ Identity_by_actor_uri (Collaborators := sample_collaborators)
      (JStr "https://remote.test/@mallory/") true (identities remote_world)
    = (identities remote_world, inr mallory)
  ∧ undated_note !! "content" = Some (JStr "<p>hi</p>")
  ∧ parse_ld_date (Collaborators := sample_collaborators)
      (default JNull (undated_note !! "published")) = inl TypeError
  ∧ ∃ row,
      by_ap (H := sample_collaborators) (JObj undated_note) true true
        remote_world
      = (set_posts [row] remote_world, inl TypeError)
      ∧ state row = new ∧ local row = false.
Proof.
  split; [reflexivity|]. split; [constructor|]. split; [reflexivity|].
  split; [reflexivity|]. split; [reflexivity|]. split; [reflexivity|].
  destruct (by_ap_failed_update_leaves_row (H := sample_collaborators)
              undated_note (JStr "https://remote.test/notes/1")
              (JStr "https://remote.test/@mallory/") "<p>hi</p>" mallory
              (identities remote_world) TypeError true remote_world)
    as (row & Hrun & _ & _ & Hlocal & Hstate & _);
    [reflexivity|constructor|reflexivity|reflexivity|reflexivity|reflexivity|].
  exists row. split; [exact Hrun|]. split; [exact Hstate|exact Hlocal].
Defined.

Lemma by_object_uri_local_witness :
  filter (λ q, object_uri q = JStr "https://example.com/@alice/posts/1/")
    (posts stored_world) = [alice_post]
  ∧ by_object_uri (H := sample_collaborators)
      (JStr "https://example.com/@alice/posts/1/") true stored_world
    = (stored_world, inr alice_post).
Proof.
  split; [reflexivity|].
  apply (by_object_uri_local (H := sample_collaborators)). reflexivity.
Defined.

Lemma by_object_uri_fetched_post_witness :
  Forall (λ q, object_uri q ≠ JStr "https://remote.test/notes/1")
    (posts remote_world)
  ∧ ∃ w' post,
      by_object_uri (H := serving_collaborators)
        (JStr "https://remote.test/notes/1") true remote_world
      = (w', inr post)
      ∧ post ∈ posts w' ∧ fanouts w' = [] ∧ length (requests w') = 1
      ∧ state post = new ∧ local post = false.
Proof.
  split; [constructor|].
  destruct (by_object_uri (H := serving_collaborators)
              (JStr "https://remote.test/notes/1") true remote_world)
    as [w' [e|post]] eqn:Hrun.
  { vm_compute in Hrun. discriminate Hrun. }
  exists w', post. split; [reflexivity|].
  destruct (by_object_uri_fetched_post (H := serving_collaborators)
              (JStr "https://remote.test/notes/1") post remote_world w'
              (Forall_nil_2 _) Hrun)
    as (Hin & Hfanouts & Hrequests & Hnew).
  destruct (Hnew (Forall_nil_2 _)) as (Hlocal & Hstate & _).
  split; [exact Hin|]. split; [exact Hfanouts|].
  split; [rewrite Hrequests; reflexivity|].
  split; [exact Hstate|exact Hlocal].
Defined.

Lemma debug_fetch_never_creates_witness :
  ∃ w' r,
    debug_fetch (H := serving_collaborators) alice_post stored_world = (w', r)
    ∧ id <$> posts w' = [1]
    ∧ length (requests w') = 1.
Proof.
  destruct (debug_fetch (H := serving_collaborators) alice_post stored_world)
    as [w' r] eqn:Hrun.
  exists w', r. split; [reflexivity|].
  destruct (debug_fetch_never_creates (H := serving_collaborators)
              alice_post stored_world w' r Hrun) as [Hids Hrequests].
  split; [exact Hids|]. rewrite Hrequests. reflexivity.
Defined.

Lemma create_local_all_or_nothing_witness :
  ∃ w' r,
    create_local (H := sample_collaborators) alice "<p>hello</p>" None
      stored_world = (w', r)
    ∧ ((∃ post, r = inr post
                ∧ w' = set_posts (posts stored_world ++ [post]) stored_world)
       ∨ (r = inl IntegrityError ∧ w' = stored_world)).
Proof.
  destruct (create_local (H := sample_collaborators) alice "<p>hello</p>" None
              stored_world) as [w' r] eqn:Hrun.
  exists w', r. split; [reflexivity|].
  exact (create_local_all_or_nothing (H := sample_collaborators)
           alice "<p>hello</p>" None stored_world w' r Hrun).
Defined.

Lemma create_local_fields_witness :
  ∃ w' post,
    create_local (H := sample_collaborators) alice "<p>hello</p>" (Some "cw")
      alice_world = (w', inr post)
    ∧ local post = true ∧ state post = new
    ∧ summary post = JStr "cw" ∧ sensitive post = JBool true.
Proof.
  destruct (create_local (H := sample_collaborators) alice "<p>hello</p>"
              (Some "cw") alice_world) as [w' [e|post]] eqn:Hrun.
  { vm_compute in Hrun. discriminate Hrun. }
  exists w', post. split; [reflexivity|].
  destruct (create_local_fields (H := sample_collaborators)
              alice "<p>hello</p>" (Some "cw") alice_world w' post Hrun)
    as (Hlocal & _ & _ & Hstate & _ & _ & _ & _ & Hsummary & Hsensitive).
  split; [exact Hlocal|]. split; [exact Hstate|].
  split; [exact Hsummary|exact Hsensitive].
Defined.

Lemma handle_create_ap_known_post_witness :
  subscript alice_create "object" = inr (JObj alice_note)
  ∧ subscript (JObj alice_note) "id"
    = inr (JStr "https://example.com/@alice/posts/1/")
  ∧ filter (λ q, object_uri q = JStr "https://example.com/@alice/posts/1/")
      (posts stored_world) = [alice_post]
  ∧ ∃ w' r,
      handle_create_ap (H := sample_collaborators) alice_create stored_world
      = (w', r)
      ∧ id <$> posts w' = [1] ∧ fanouts w' = [].
Proof.
  split; [reflexivity|]. split; [reflexivity|]. split; [reflexivity|].
  destruct (handle_create_ap (H := sample_collaborators) alice_create
              stored_world) as [w' r] eqn:Hrun.
  exists w', r. split; [reflexivity|].
  exact (handle_create_ap_known_post (H := sample_collaborators)
           alice_create (JObj alice_note)
           (JStr "https://example.com/@alice/posts/1/") alice_post
           stored_world w' r eq_refl eq_refl eq_refl Hrun).
Defined.

Lemma handle_create_ap_replay_witness :
  subscript mallory_create "object" = inr (JObj mallory_note)
  ∧ subscript (JObj mallory_note) "id"
    = inr (JStr "https://remote.test/notes/1")
  ∧ Forall (λ q, object_uri q ≠ JStr "https://remote.test/notes/1")
      (posts remote_world)
  ∧ ∃ w1 w2 r,
      handle_create_ap (H := sample_collaborators) mallory_create remote_world
      = (w1, inr tt)
      ∧ handle_create_ap (H := sample_collaborators) mallory_create w1
        = (w2, r)
      ∧ length (posts w1) = 1
      ∧ id <$> posts w2 = id <$> posts w1
      ∧ fanouts w2 = [].
Proof.
  split; [reflexivity|]. split; [reflexivity|]. split; [constructor|].
  destruct (handle_create_ap (H := sample_collaborators) mallory_create
              remote_world) as [w1 [e|[]]] eqn:Hfirst.
  { vm_compute in Hfirst. discriminate Hfirst. }
  destruct (handle_create_ap (H := sample_collaborators) mallory_create w1)
    as [w2 r] eqn:Hsecond.
  exists w1, w2, r. split; [reflexivity|]. split; [exact Hsecond|].
  exact (handle_create_ap_replay (H := sample_collaborators)
           mallory_create (JObj mallory_note)
           (JStr "https://remote.test/notes/1") remote_world w1 w2 r
           eq_refl eq_refl (Forall_nil_2 _) Hfirst Hsecond).
Defined.

Lemma by_ap_then_to_ap_witness :
  ∃ w' post,
    by_ap (H := sample_collaborators) (JObj mallory_note) true true
      remote_world = (w', inr post)
    ∧ local post = false
    ∧ to_ap (H := sample_collaborators) post !! "id"
      = Some (JStr "https://remote.test/notes/1")
    ∧ to_ap (H := sample_collaborators) post !! "summary" = None.
Proof.
  destruct (by_ap (H := sample_collaborators) (JObj mallory_note) true true
              remote_world) as [w' [e|post]] eqn:Hrun.
  { vm_compute in Hrun. discriminate Hrun. }
  assert (Hlocal : local post = false).
  { vm_compute in Hrun. injection Hrun as _ <-. reflexivity. }
  exists w', post. split; [reflexivity|]. split; [exact Hlocal|].
  destruct (by_ap_then_to_ap (H := sample_collaborators)
              (JObj mallory_note) true post remote_world w' Hrun Hlocal)
    as (m & raw & Hm & _ & Hid & _ & _ & _ & Hsummary).
  injection Hm as <-.
  split; [exact Hid|exact Hsummary].
Defined.

Lemma handle_delete_ap_twice_witness :
  filter (λ p, object_uri p = JStr "https://example.com/@alice/posts/1/")
    (posts stored_world) = [alice_post]
  ∧ ∃ w',
      handle_delete_ap (H := sample_collaborators)
        (delete_of "https://example.com/@alice/posts/1/"
           "https://example.com/@alice/") stored_world
      = (w', inr tt)
      ∧ handle_delete_ap (H := sample_collaborators)
          (delete_of "https://example.com/@alice/posts/1/"
             "https://example.com/@alice/") w'
        = (w', inr tt).
Proof.
  split; [reflexivity|].
  destruct (handle_delete_ap_twice (H := sample_collaborators)
              (delete_of "https://example.com/@alice/posts/1/"
                 "https://example.com/@alice/")
              (JObj (<["id" := JStr "https://example.com/@alice/posts/1/"]> ∅))
              (JStr "https://example.com/@alice/posts/1/")
              alice_post stored_world)
    as (w' & Hfirst & _ & Hsecond);
    [reflexivity|reflexivity|reflexivity|reflexivity|].
  exists w'. split; [exact Hfirst|exact Hsecond].
Defined.

Lemma QuestionOption_init_votes_witness :
  (∀ r, tea_option !! "replies" = Some r → ∃ m, r = PostTypes.PDict m)
  ∧ ∃ data',
      PostTypes.QuestionOption_init tea_option = inr data'
      ∧ data' !! "votes" = Some (PostTypes.PInt 4)
      ∧ data' !! "name" = Some (PostTypes.PStr "tea").
Proof.
  assert (Hreplies : ∀ r, tea_option !! "replies" = Some r →
                          ∃ m, r = PostTypes.PDict m).
  { intros r Hr. unfold tea_option in Hr.
    rewrite lookup_insert_ne, lookup_insert_eq in Hr by discriminate.
    injection Hr as <-. eexists. reflexivity. }
  split; [exact Hreplies|].
  destruct (QuestionOption_init_votes tea_option Hreplies)
    as (data' & Hrun & Hvotes & Hother).
  exists data'. split; [exact Hrun|].
  split.
  - rewrite Hvotes. unfold tea_option.
    rewrite !(lookup_insert_ne _ "name") by discriminate.
    rewrite (lookup_insert_ne _ "replies" "votes") by discriminate.
    rewrite lookup_empty, lookup_insert_eq, lookup_insert_eq. reflexivity.
  - rewrite Hother by discriminate. unfold tea_option.
    apply lookup_insert_eq.
Defined.

Lemma QuestionOption_init_bad_replies_witness :
  odd_option !! "replies" = Some (PostTypes.PStr "none")
  ∧ odd_option !! "votes" = Some (PostTypes.PInt 3)
  ∧ PostTypes.QuestionOption_init odd_option
    = inl (OtherError "AttributeError").
Proof.
  assert (Hreplies : odd_option !! "replies" = Some (PostTypes.PStr "none")).
  { unfold odd_option.
    rewrite !lookup_insert_ne by discriminate. apply lookup_insert_eq. }
  split; [exact Hreplies|].
  split.
  - unfold odd_option. rewrite lookup_insert_ne by discriminate.
    apply lookup_insert_eq.
  - apply (QuestionOption_init_bad_replies odd_option (PostTypes.PStr "none"));
      [exact Hreplies|discriminate].
Defined.

Lemma QuestionData_init_options_witness :
  odd_poll !! "options" = None
  ∧ PostTypes.QuestionData_init odd_poll !! "anyOf" = None
  ∧ PostTypes.QuestionData_init odd_poll !! "oneOf" = None.
Proof.
  assert (Hoptions : odd_poll !! "options" = None).
  { unfold odd_poll. rewrite !lookup_insert_ne by discriminate.
    apply lookup_empty. }
  assert (Hany : odd_poll !! "anyOf" = Some (PostTypes.PList [])).
  { unfold odd_poll. rewrite lookup_insert_ne by discriminate.
    apply lookup_insert_eq. }
  split; [exact Hoptions|].
  destruct (QuestionData_init_options odd_poll Hoptions)
    as (Hno_any & _ & Hone & _).
  split; [exact Hno_any|].
  rewrite Hone, Hany. reflexivity.
Defined.

Lemma QuestionData_init_empty_anyOf_witness :
  odd_poll !! "mode" = None
  ∧ odd_poll !! "options" = None
  ∧ odd_poll !! "anyOf" = Some (PostTypes.PList [])
  ∧ PostTypes.truthy (PostTypes.PList []) = false
  ∧ PostTypes.QuestionData_init odd_poll !! "mode"
    = Some (PostTypes.PStr "anyOf")
  ∧ PostTypes.QuestionData_init odd_poll !! "options"
    = Some (PostTypes.PList [PostTypes.PDict tea_option]).
Proof.
  assert (Hmode : odd_poll !! "mode" = None).
  { unfold odd_poll. rewrite !lookup_insert_ne by discriminate.
    apply lookup_empty. }
  assert (Hoptions : odd_poll !! "options" = None).
  { unfold odd_poll. rewrite !lookup_insert_ne by discriminate.
    apply lookup_empty. }
  assert (Hany : odd_poll !! "anyOf" = Some (PostTypes.PList [])).
  { unfold odd_poll. rewrite lookup_insert_ne by discriminate.
    apply lookup_insert_eq. }
  assert (Hone : odd_poll !! "oneOf"
                 = Some (PostTypes.PList [PostTypes.PDict tea_option])).
  { unfold odd_poll. rewrite !lookup_insert_ne by discriminate.
    apply lookup_insert_eq. }
  split; [exact Hmode|]. split; [exact Hoptions|]. split; [exact Hany|].
  split; [reflexivity|].
  destruct (QuestionData_init_empty_anyOf odd_poll (PostTypes.PList [])
              Hmode Hoptions Hany eq_refl) as [Hm Ho].
  split; [exact Hm|]. rewrite Ho, Hone. reflexivity.
Defined.

Lemma to_mastodon_json_totals_witness :
  (∃ value,
     PostTypes.to_mastodon_json (H := sample_collaborators) true
       PostTypes.sample_question PostTypes.sample_votes alice_post (Some bob)
       stored_world = (stored_world, inr value)
     ∧ value !! "votes_count" = Some (PostTypes.PInt 8))
  ∧ PostTypes.to_mastodon_json (H := sample_collaborators) true
      PostTypes.naive_question PostTypes.sample_votes alice_post (Some bob)
      stored_world = (stored_world, inl TypeError).
Proof.
  split.
  - destruct (PostTypes.to_mastodon_json (H := sample_collaborators) true
                PostTypes.sample_question PostTypes.sample_votes alice_post
                (Some bob) stored_world) as [w' [e|value]] eqn:Hrun.
    + destruct (to_mastodon_json_totals (H := sample_collaborators)
                  _ _ _ _ _ _ _ _ Hrun) as (_ & _ & t & [= <-] & Hne).
      by destruct Hne.
    + destruct (to_mastodon_json_totals (H := sample_collaborators)
                  _ _ _ _ _ _ _ _ Hrun) as (-> & _ & _ & Hvotes & _).
      exists value. split; [reflexivity|exact Hvotes].
  - destruct (PostTypes.to_mastodon_json (H := sample_collaborators) true
                PostTypes.naive_question PostTypes.sample_votes alice_post
                (Some bob) stored_world) as [w' [e|value]] eqn:Hrun.
    + destruct (to_mastodon_json_totals (H := sample_collaborators)
                  _ _ _ _ _ _ _ _ Hrun) as (-> & -> & _).
      reflexivity.
    + destruct (to_mastodon_json_totals (H := sample_collaborators)
                  _ _ _ _ _ _ _ _ Hrun) as (_ & Haware & _).
      discriminate (Haware _ eq_refl).
Defined.

Lemma to_mastodon_json_own_votes_witness :
  ∃ document,
    PostTypes.to_mastodon_json (H := sample_collaborators) true
      PostTypes.sample_question PostTypes.sample_votes alice_post (Some bob)
      stored_world = (stored_world, inr document)
    ∧ document !! "own_votes" = Some (PostTypes.PList [PostTypes.PInt 2])
    ∧ ∃ indices,
        document !! "own_votes"
        = Some (PostTypes.PList ((λ i, PostTypes.PInt (Z.of_nat i)) <$> indices))
        ∧ Forall (λ k, k < 3) indices.
Proof.
  destruct (PostTypes.to_mastodon_json (H := sample_collaborators) true
              PostTypes.sample_question PostTypes.sample_votes alice_post
              (Some bob) stored_world) as [w' [e|document]] eqn:Hrun.
  { destruct (to_mastodon_json_run (H := sample_collaborators)
                _ _ _ _ _ _ _ _ Hrun) as (_ & _ & t & [= <-] & Hne).
    by destruct Hne. }
  destruct (to_mastodon_json_run (H := sample_collaborators)
              _ _ _ _ _ _ _ _ Hrun)
    as (-> & _ & loop & -> & _ & _ & _ & _ & _ & _ & _ & _ & _ & Hown).
  destruct (to_mastodon_json_own_votes (H := sample_collaborators)
              _ _ _ _ _ _ _ _ Hrun) as (indices & Hindices & Hall).
  exists document. split; [reflexivity|]. split.
  { rewrite Hown. vm_compute. reflexivity. }
  exists indices. split; [exact Hindices|].
  eapply Forall_impl; [exact Hall|].
  intros k (o & _ & Hk & _). apply lookup_lt_Some in Hk. exact Hk.
Defined.

Lemma to_mastodon_json_voted_witness :
  ∃ document,
    PostTypes.to_mastodon_json (H := sample_collaborators) true
      PostTypes.sample_question PostTypes.sample_votes alice_post (Some alice)
      stored_world = (stored_world, inr document)
    ∧ PostTypes.votes_of PostTypes.sample_votes alice_post alice = []
    ∧ document !! "voted" = Some (PostTypes.PBool true).
Proof.
  destruct (PostTypes.to_mastodon_json (H := sample_collaborators) true
              PostTypes.sample_question PostTypes.sample_votes alice_post
              (Some alice) stored_world) as [w' [e|document]] eqn:Hrun.
  { destruct (to_mastodon_json_run (H := sample_collaborators)
                _ _ _ _ _ _ _ _ Hrun) as (_ & _ & t & [= <-] & Hne).
    by destruct Hne. }
  assert (Hw : w' = stored_world)
    by (by destruct (to_mastodon_json_run (H := sample_collaborators)
                       _ _ _ _ _ _ _ _ Hrun)).
  destruct (to_mastodon_json_voted (H := sample_collaborators)
              _ _ _ _ _ _ _ _ Hrun) as (voted & Hvoted & Hiff).
  subst w'. exists document. split; [reflexivity|]. split; [reflexivity|].
  rewrite Hvoted. f_equal. f_equal. apply Hiff. left. reflexivity.
Defined.
